(** * ROSAirSim: the AirSim-to-ROS bridge of SCRIMMAGE

    A shallow embedding of
    [src/plugins/autonomy/ROSAirSim/ROSAirSim.cpp]: the initialization
    routine [init], the two sensor callbacks it installs
    ([airsim_lidar_cb], [airsim_image_cb]) and the per-tick routine
    [step_autonomy], together with the part of Eigen's geometry module
    the plugin calls.

    Conventions.
    - Eigen is templated over its [Scalar]; so is this development
      (class [Scalar]).  Statements about angles are proved at the
      instance of the real numbers: rounding of [float] and [double]
      is not modelled, and the exact widening [float -> double] done
      when a message field is assigned is the identity.
    - The plugin object is the record [ROSAirSim]; everything outside
      it (the ROS graph, the transform broadcaster, the clock, OpenCV
      windows, the mutex operations) is observed through the events a
      routine emits, in the order it emits them.
    - The point cloud is only ever copied and reinterpreted as bytes,
      never computed with: a [float] of the cloud is its four bytes in
      memory order. *)

From Stdlib Require Import ZArith List String Ascii Bool Lia Reals Lra DecimalString.
From Stdlib Require Import RNsatz DecimalZ DecimalPos.
Import ListNotations.

Set Implicit Arguments.

(* ================================================================== *)
(** * Scalars *)

Class Scalar (F : Type) : Type := {
  of_Z : Z -> F;
  fadd : F -> F -> F;
  fsub : F -> F -> F;
  fmul : F -> F -> F;
  fdiv : F -> F -> F;
  fopp : F -> F;
  fsqrt : F -> F;
  fcos : F -> F;
  fsin : F -> F;
  M_PI : F;
  fgt : F -> F -> bool
}.

Declare Scope scalar_scope.
Delimit Scope scalar_scope with sc.
Infix "+" := fadd : scalar_scope.
Infix "-" := fsub : scalar_scope.
Infix "*" := fmul : scalar_scope.
Infix "/" := fdiv : scalar_scope.
Notation "- a" := (fopp a) : scalar_scope.
Infix ">?" := fgt (at level 70, no associativity) : scalar_scope.

(** The real numbers, the idealisation of [float] and [double]. *)
#[export] Instance R_Scalar : Scalar R := {|
  of_Z := IZR;
  fadd := Rplus;
  fsub := Rminus;
  fmul := Rmult;
  fdiv := Rdiv;
  fopp := Ropp;
  fsqrt := sqrt;
  fcos := cos;
  fsin := sin;
  M_PI := PI;
  fgt := fun a b => if Rgt_dec a b then true else false
|}.

(* ================================================================== *)
(** * The part of Eigen's geometry module the plugin uses *)

Module Eigen.

Record Vector3 (F : Type) : Type := mkVector3 { v_x : F; v_y : F; v_z : F }.

(** [Eigen::Quaternion]: coefficient [w] and the vector part. *)
Record Quaternion (F : Type) : Type :=
  mkQuaternion { q_w : F; q_x : F; q_y : F; q_z : F }.

Record Matrix3 (F : Type) : Type := mkMatrix3 {
  m00 : F; m01 : F; m02 : F;
  m10 : F; m11 : F; m12 : F;
  m20 : F; m21 : F; m22 : F
}.

Record AngleAxis (F : Type) : Type := mkAngleAxis { angle : F; axis : Vector3 F }.

(** [Eigen::Isometry3f]: a rotation block and a translation column. *)
Record Isometry3 (F : Type) : Type :=
  mkIsometry3 { linear : Matrix3 F; translation : Vector3 F }.

Section Geometry.
Context {F : Type} `{Scalar F}.
Local Open Scope scalar_scope.

Definition UnitX : Vector3 F := mkVector3 (of_Z 1) (of_Z 0) (of_Z 0).
Definition UnitZ : Vector3 F := mkVector3 (of_Z 0) (of_Z 0) (of_Z 1).

(** [Scalar(0.5)]. *)
Definition half : F := of_Z 1 / of_Z 2.

(** [Quaternion::operator=(const AngleAxis&)]. *)
Definition quat_of_angle_axis (aa : AngleAxis F) : Quaternion F :=
  let ha := half * angle aa in
  mkQuaternion (fcos ha)
               (fsin ha * v_x (axis aa))
               (fsin ha * v_y (axis aa))
               (fsin ha * v_z (axis aa)).

(** [Quaternion * Quaternion]. *)
Definition quat_mul (a b : Quaternion F) : Quaternion F :=
  mkQuaternion
    (q_w a * q_w b - q_x a * q_x b - q_y a * q_y b - q_z a * q_z b)
    (q_w a * q_x b + q_x a * q_w b + q_y a * q_z b - q_z a * q_y b)
    (q_w a * q_y b + q_y a * q_w b + q_z a * q_x b - q_x a * q_z b)
    (q_w a * q_z b + q_z a * q_w b + q_x a * q_y b - q_y a * q_x b).

(** [AngleAxis * Quaternion]: the angle-axis is converted first. *)
Definition angle_axis_mul (aa : AngleAxis F) (q : Quaternion F) : Quaternion F :=
  quat_mul (quat_of_angle_axis aa) q.

(** [Quaternion::toRotationMatrix]. *)
Definition toRotationMatrix (q : Quaternion F) : Matrix3 F :=
  let tx := of_Z 2 * q_x q in
  let ty := of_Z 2 * q_y q in
  let tz := of_Z 2 * q_z q in
  let twx := tx * q_w q in
  let twy := ty * q_w q in
  let twz := tz * q_w q in
  let txx := tx * q_x q in
  let txy := ty * q_x q in
  let txz := tz * q_x q in
  let tyy := ty * q_y q in
  let tyz := tz * q_y q in
  let tzz := tz * q_z q in
  mkMatrix3 (of_Z 1 - (tyy + tzz)) (txy - twz) (txz + twy)
            (txy + twz) (of_Z 1 - (txx + tzz)) (tyz - twx)
            (txz - twy) (tyz + twx) (of_Z 1 - (txx + tyy)).

Definition coeff (m : Matrix3 F) (i j : nat) : F :=
  match i, j with
  | 0, 0 => m00 m | 0, 1 => m01 m | 0, _ => m02 m
  | 1, 0 => m10 m | 1, 1 => m11 m | 1, _ => m12 m
  | _, 0 => m20 m | _, 1 => m21 m | _, _ => m22 m
  end%nat.

(** [q.coeffs().coeffRef(i) = v] for [i] in 0..2 (x, y, z). *)
Definition set_vec (q : Quaternion F) (i : nat) (v : F) : Quaternion F :=
  match i with
  | 0%nat => mkQuaternion (q_w q) v (q_y q) (q_z q)
  | 1%nat => mkQuaternion (q_w q) (q_x q) v (q_z q)
  | _ => mkQuaternion (q_w q) (q_x q) (q_y q) v
  end.

Definition set_w (q : Quaternion F) (v : F) : Quaternion F :=
  mkQuaternion v (q_x q) (q_y q) (q_z q).

(** [Quaternion(const Matrix3&)], the conversion of a rotation matrix
    (Shoemake's algorithm as Eigen writes it). *)
Definition quat_of_matrix (mat : Matrix3 F) : Quaternion F :=
  let t := m00 mat + m11 mat + m22 mat in
  if t >? of_Z 0 then
    let t1 := fsqrt (t + of_Z 1) in
    let t2 := half / t1 in
    mkQuaternion (half * t1)
                 ((m21 mat - m12 mat) * t2)
                 ((m02 mat - m20 mat) * t2)
                 ((m10 mat - m01 mat) * t2)
  else
    let i := 0%nat in
    let i := if m11 mat >? m00 mat then 1%nat else i in
    let i := if m22 mat >? coeff mat i i then 2%nat else i in
    let j := ((i + 1) mod 3)%nat in
    let k := ((j + 1) mod 3)%nat in
    let t1 := fsqrt (coeff mat i i - coeff mat j j - coeff mat k k + of_Z 1) in
    let q := set_vec (mkQuaternion (of_Z 0) (of_Z 0) (of_Z 0) (of_Z 0)) i (half * t1) in
    let t2 := half / t1 in
    let q := set_w q ((coeff mat k j - coeff mat j k) * t2) in
    let q := set_vec q j ((coeff mat j i + coeff mat i j) * t2) in
    set_vec q k ((coeff mat k i + coeff mat i k) * t2).

Definition transpose (m : Matrix3 F) : Matrix3 F :=
  mkMatrix3 (m00 m) (m10 m) (m20 m)
            (m01 m) (m11 m) (m21 m)
            (m02 m) (m12 m) (m22 m).

Definition mat_vec (m : Matrix3 F) (v : Vector3 F) : Vector3 F :=
  mkVector3 (m00 m * v_x v + m01 m * v_y v + m02 m * v_z v)
            (m10 m * v_x v + m11 m * v_y v + m12 m * v_z v)
            (m20 m * v_x v + m21 m * v_y v + m22 m * v_z v).

Definition mat_mul (a b : Matrix3 F) : Matrix3 F :=
  let col j := mat_vec a (mkVector3 (coeff b 0 j) (coeff b 1 j) (coeff b 2 j)) in
  mkMatrix3 (v_x (col 0%nat)) (v_x (col 1%nat)) (v_x (col 2%nat))
            (v_y (col 0%nat)) (v_y (col 1%nat)) (v_y (col 2%nat))
            (v_z (col 0%nat)) (v_z (col 1%nat)) (v_z (col 2%nat)).

Definition vec_add (a b : Vector3 F) : Vector3 F :=
  mkVector3 (v_x a + v_x b) (v_y a + v_y b) (v_z a + v_z b).

Definition vec_opp (a : Vector3 F) : Vector3 F :=
  mkVector3 (- v_x a) (- v_y a) (- v_z a).

(** [Translation3f(t) * Quaternionf(q)], an isometry. *)
Definition translation_mul_quat (t : Vector3 F) (q : Quaternion F) : Isometry3 F :=
  mkIsometry3 (toRotationMatrix q) t.

(** [Isometry3f::inverse()] in [Isometry] mode. *)
Definition inverse (tf : Isometry3 F) : Isometry3 F :=
  let lt := transpose (linear tf) in
  mkIsometry3 lt (vec_opp (mat_vec lt (translation tf))).

(** [Isometry3f * Isometry3f]. *)
Definition compose (a b : Isometry3 F) : Isometry3 F :=
  mkIsometry3 (mat_mul (linear a) (linear b))
              (vec_add (mat_vec (linear a) (translation b)) (translation a)).

(** [Isometry3f::rotation()]: the linear block in [Isometry] mode. *)
Definition rotation (tf : Isometry3 F) : Matrix3 F := linear tf.

End Geometry.

End Eigen.

(* ================================================================== *)
(** * Strings *)

(** [boost::algorithm::to_lower_copy] in the classic locale: the letters
    A..Z are mapped to a..z, every other character is kept. *)
Definition to_lower_char (c : ascii) : ascii :=
  let n := nat_of_ascii c in
  if ((65 <=? n) && (n <=? 90))%nat then ascii_of_nat (n + 32) else c.

Fixpoint to_lower_copy (s : string) : string :=
  match s with
  | EmptyString => EmptyString
  | String c s' => String (to_lower_char c) (to_lower_copy s')
  end.

(** [std::to_string(int)]. *)
Definition to_string (n : Z) : string :=
  DecimalString.NilZero.string_of_int (Z.to_int n).

(* ================================================================== *)
(** * Sensor samples received from the simulator *)

(** [cv::Mat]: the plugin never looks inside an image. *)
Record Mat : Type := mkMat { rows : N; cols : N; pixels : list Byte.byte }.

(** A [float] of the point cloud, as its four bytes in memory. *)
Record float : Type :=
  mkFloat { byte0 : Byte.byte; byte1 : Byte.byte; byte2 : Byte.byte; byte3 : Byte.byte }.

Definition bytes_of_float (f : float) : list Byte.byte :=
  [byte0 f; byte1 f; byte2 f; byte3 f].

(** A pose as the simulator reports it (position and orientation). *)
Record Pose (F : Type) : Type :=
  mkPose { position : Eigen.Vector3 F; orientation : Eigen.Quaternion F }.

Record CameraConfig : Type := mkCameraConfig {
  cam_name : string;
  img_type_name : string;
  pixels_as_float : bool
}.

Module AirSimImageType.
Record t (F : Type) : Type := mk {
  vehicle_name : string;
  camera_config : CameraConfig;
  img : Mat;
  vehicle_pose_world_NED : Pose F;
  camera_pose_world_NED : Pose F
}.
End AirSimImageType.

Record LidarData : Type := mkLidarData { point_cloud : list float }.

Module AirSimLidarType.
Record t (F : Type) : Type := mk {
  lidar_data : LidarData;
  vehicle_pose_world_NED : Pose F;
  lidar_pose_world_NED : Pose F
}.
End AirSimLidarType.

(* ================================================================== *)
(** * Middleware messages *)

(** [ros::Time]. *)
Definition Time : Type := Z.

Record Header : Type := mkHeader { stamp : Time; frame_id : string }.

(** [geometry_msgs::Transform], field [translation_x] standing for
    [translation.x] and so on. *)
Record Transform (F : Type) : Type := mkTransform {
  translation_x : F; translation_y : F; translation_z : F;
  rotation_x : F; rotation_y : F; rotation_z : F; rotation_w : F
}.

Record TransformStamped (F : Type) : Type := mkTransformStamped {
  header : Header;
  child_frame_id : string;
  transform : Transform F
}.

(** [sensor_msgs::PointField::FLOAT32]. *)
Definition FLOAT32 : Z := 7.

Record PointField : Type := mkPointField {
  name : string;
  offset : Z;      (* uint32 *)
  datatype : Z;    (* uint8 *)
  count : Z        (* uint32 *)
}.

Module PointCloud2.
Record t : Type := mk {
  header : Header;
  height : Z;          (* uint32 *)
  width : Z;           (* uint32 *)
  fields : list PointField;
  is_bigendian : bool;
  point_step : Z;      (* uint32 *)
  row_step : Z;        (* uint32 *)
  data : list Byte.byte;
  is_dense : bool
}.
End PointCloud2.

(** The result of [cv_bridge::CvImage(header, encoding, img).toImageMsg()]. *)
Module Image.
Record t : Type := mk { header : Header; encoding : string; image : Mat }.
End Image.

(** A publisher handle ([ros::Publisher], [image_transport::Publisher]);
    [getTopic] is the name it was advertised under. *)
Record Publisher : Type := mkPublisher { getTopic : string }.

(* ================================================================== *)
(** * The plugin object and its environment *)

(** What a routine does to the outside, in program order. *)
Inductive Event (F : Type) : Type :=
| EvCout (line : string)                               (* cout << line << endl *)
| EvRosInit                                            (* ros::init *)
| EvAdvertise (topic : string)                         (* advertise(topic, 1) *)
| EvSubscribe (network topic : string)                 (* subscribe<..>(network, topic, cb) *)
| EvSendTransform (msgs : list (TransformStamped F))   (* laser_broadcaster_->sendTransform *)
| EvPublishImage (pub : Publisher) (msg : Image.t)     (* pub.publish(img_msg) *)
| EvPublishCloud (pub : Publisher) (msg : PointCloud2.t)
| EvSpinOnce                                           (* ros::spinOnce *)
| EvLock                                               (* img_topic_published_mutex_.lock *)
| EvUnlock                                             (* img_topic_published_mutex_.unlock *)
| EvReadFlag (v : bool)                                (* a read of img_topic_published_ *)
| EvWriteFlag (v : bool)                               (* a write of img_topic_published_ *)
| EvImshow (window_name : string) (scaled : bool) (img : Mat)
| EvWaitKey (delay : Z).

Arguments EvCout {F}.
Arguments EvRosInit {F}.
Arguments EvAdvertise {F}.
Arguments EvSubscribe {F}.
Arguments EvPublishImage {F}.
Arguments EvPublishCloud {F}.
Arguments EvSpinOnce {F}.
Arguments EvLock {F}.
Arguments EvUnlock {F}.
Arguments EvReadFlag {F}.
Arguments EvWriteFlag {F}.
Arguments EvImshow {F}.
Arguments EvWaitKey {F}.

(** The members of [ROSAirSim] the file reads or writes.  The handles
    [nh_], [it_] and [laser_broadcaster_] are created by [init] and only
    called through afterwards; the calls are events. *)
Record ROSAirSim (F : Type) : Type := mkROSAirSim {
  show_camera_images_ : bool;
  pub_image_data_ : bool;
  pub_lidar_data_ : bool;
  ros_name_ : string;
  ros_namespace_ : string;
  base_scan_pub_ : Publisher;
  img_publishers_ : list Publisher;
  camera_names_ : list string;
  image_data_ : list (AirSimImageType.t F);
  lidar_data_ : AirSimLidarType.t F;
  img_topic_published_ : bool;
  world_trans_ : TransformStamped F
}.

(** The clock behind [ros::Time::now()] (an arbitrary sequence of
    instants, read one after the other) and [ros::isInitialized()]. *)
Record World : Type := mkWorld {
  clock : nat -> Time;
  now_calls : nat;
  ros_isInitialized : bool
}.

Record St (F : Type) : Type := mkSt { self : ROSAirSim F; world : World }.

(** A routine: state in, result, state and emitted events out. *)
Definition M (F A : Type) : Type := St F -> (A * St F) * list (Event F).

Definition ret {F A} (a : A) : M F A := fun s => ((a, s), []).

Definition bind {F A B} (c : M F A) (k : A -> M F B) : M F B :=
  fun s =>
    let r1 := c s in
    let r2 := k (fst (fst r1)) (snd (fst r1)) in
    (fst r2, snd r1 ++ snd r2).

Declare Scope routine_scope.
Delimit Scope routine_scope with routine.
Notation "x <- c ;; k" := (bind c (fun x => k))
  (at level 61, c at next level, right associativity) : routine_scope.
Notation "c ;; k" := (bind c (fun _ => k))
  (at level 61, right associativity) : routine_scope.

Definition emit {F} (e : Event F) : M F unit := fun s => ((tt, s), [e]).

Definition this {F} : M F (ROSAirSim F) := fun s => ((self s, s), []).

Definition update {F} (f : ROSAirSim F -> ROSAirSim F) : M F unit :=
  fun s => ((tt, mkSt (f (self s)) (world s)), []).

(** [ros::Time::now()]. *)
Definition now {F} : M F Time :=
  fun s =>
    let w := world s in
    ((clock w (now_calls w),
      mkSt (self s) (mkWorld (clock w) (S (now_calls w)) (ros_isInitialized w))), []).

Definition events_of {F A} (c : M F A) (s : St F) : list (Event F) := snd (c s).
Definition result_of {F A} (c : M F A) (s : St F) : A := fst (fst (c s)).
Definition state_after {F A} (c : M F A) (s : St F) : St F := snd (fst (c s)).

(** [for (auto x : l) body(x)]. *)
Fixpoint for_each {F A} (l : list A) (body : A -> M F unit) : M F unit :=
  match l with
  | [] => ret tt
  | x :: l' => bind (body x) (fun _ => for_each l' body)
  end.

Section Setters.
Context {F : Type}.

Definition set_image_data_ (v : list (AirSimImageType.t F)) (o : ROSAirSim F) :=
  mkROSAirSim (show_camera_images_ o) (pub_image_data_ o) (pub_lidar_data_ o)
    (ros_name_ o) (ros_namespace_ o) (base_scan_pub_ o) (img_publishers_ o)
    (camera_names_ o) v (lidar_data_ o) (img_topic_published_ o) (world_trans_ o).

Definition set_lidar_data_ (v : AirSimLidarType.t F) (o : ROSAirSim F) :=
  mkROSAirSim (show_camera_images_ o) (pub_image_data_ o) (pub_lidar_data_ o)
    (ros_name_ o) (ros_namespace_ o) (base_scan_pub_ o) (img_publishers_ o)
    (camera_names_ o) (image_data_ o) v (img_topic_published_ o) (world_trans_ o).

Definition set_img_publishers_ (v : list Publisher) (o : ROSAirSim F) :=
  mkROSAirSim (show_camera_images_ o) (pub_image_data_ o) (pub_lidar_data_ o)
    (ros_name_ o) (ros_namespace_ o) (base_scan_pub_ o) v
    (camera_names_ o) (image_data_ o) (lidar_data_ o) (img_topic_published_ o)
    (world_trans_ o).

Definition set_camera_names_ (v : list string) (o : ROSAirSim F) :=
  mkROSAirSim (show_camera_images_ o) (pub_image_data_ o) (pub_lidar_data_ o)
    (ros_name_ o) (ros_namespace_ o) (base_scan_pub_ o) (img_publishers_ o)
    v (image_data_ o) (lidar_data_ o) (img_topic_published_ o) (world_trans_ o).

Definition set_img_topic_published_ (v : bool) (o : ROSAirSim F) :=
  mkROSAirSim (show_camera_images_ o) (pub_image_data_ o) (pub_lidar_data_ o)
    (ros_name_ o) (ros_namespace_ o) (base_scan_pub_ o) (img_publishers_ o)
    (camera_names_ o) (image_data_ o) (lidar_data_ o) v (world_trans_ o).

Definition set_world_trans_ (v : TransformStamped F) (o : ROSAirSim F) :=
  mkROSAirSim (show_camera_images_ o) (pub_image_data_ o) (pub_lidar_data_ o)
    (ros_name_ o) (ros_namespace_ o) (base_scan_pub_ o) (img_publishers_ o)
    (camera_names_ o) (image_data_ o) (lidar_data_ o) (img_topic_published_ o) v.

(** The mutex and the flag it guards.  The flag is reached through
    these two routines only, so that every access shows in the events. *)
Definition lock : M F unit := emit EvLock.
Definition unlock : M F unit := emit EvUnlock.

Definition read_img_topic_published_ : M F bool :=
  fun s => ((img_topic_published_ (self s), s),
            [EvReadFlag (img_topic_published_ (self s))]).

Definition write_img_topic_published_ (v : bool) : M F unit :=
  fun s => ((tt, mkSt (set_img_topic_published_ v (self s)) (world s)),
            [EvWriteFlag v]).

(** [nh_->advertise] and [it_->advertise]. *)
Definition advertise (topic : string) : M F Publisher :=
  fun s => ((mkPublisher topic, s), [EvAdvertise topic]).

Definition sendTransform (msgs : list (TransformStamped F)) : M F unit :=
  emit (EvSendTransform msgs).

End Setters.

(* ================================================================== *)
(** * The pose computations, one transcription per place in the source *)

(** Fields of a [TransformStamped] taken from an isometry:
    [transform.translation] from [tf.translation()] and
    [transform.rotation] from [Quaternionf(tf.rotation())]. *)
Definition transform_of_isometry {F} `{Scalar F} (tf : Eigen.Isometry3 F) : Transform F :=
  let q := Eigen.quat_of_matrix (Eigen.rotation tf) in
  mkTransform (Eigen.v_x (Eigen.translation tf))
              (Eigen.v_y (Eigen.translation tf))
              (Eigen.v_z (Eigen.translation tf))
              (Eigen.q_x q) (Eigen.q_y q) (Eigen.q_z q) (Eigen.q_w q).

(** Inside [airsim_image_cb], for a camera name seen for the first time. *)
Module ImageCb.
Section WithScalar.
Context {F : Type} `{Scalar F}.
Local Open Scope scalar_scope.
Import Eigen.
Variable a : AirSimImageType.t F.

Definition xTo : F := of_Z (-180) * (M_PI / of_Z 180).
Definition zTo : F := of_Z 90 * (M_PI / of_Z 180).

Definition vehicle_position_ENU : Vector3 F :=
  let p := position (AirSimImageType.vehicle_pose_world_NED a) in
  mkVector3 (v_y p) (v_x p) (of_Z (-1) * v_z p).

Definition vehicle_orientation_ENU : Quaternion F :=
  let NED_quat := orientation (AirSimImageType.vehicle_pose_world_NED a) in
  let vehicle_orientation_ENU := angle_axis_mul (mkAngleAxis xTo UnitX) NED_quat in
  angle_axis_mul (mkAngleAxis zTo UnitZ) vehicle_orientation_ENU.

Definition tf_world_vehicle_ENU : Isometry3 F :=
  translation_mul_quat vehicle_position_ENU vehicle_orientation_ENU.

Definition camera_position_world_ENU : Vector3 F :=
  let p := position (AirSimImageType.camera_pose_world_NED a) in
  mkVector3 (v_y p) (v_x p) (of_Z (-1) * v_z p).

Definition camera_orientation_world_ENU : Quaternion F :=
  let NED_quat_camera := orientation (AirSimImageType.camera_pose_world_NED a) in
  let camera_orientation_world_ENU :=
    angle_axis_mul (mkAngleAxis xTo UnitX) NED_quat_camera in
  angle_axis_mul (mkAngleAxis zTo UnitZ) camera_orientation_world_ENU.

Definition tf_world_camera_ENU : Isometry3 F :=
  translation_mul_quat camera_position_world_ENU camera_orientation_world_ENU.

Definition tf_vehicle_camera_ENU : Isometry3 F :=
  compose (inverse tf_world_vehicle_ENU) tf_world_camera_ENU.

Definition image_trans_ (ros_namespace camera_name : string) (stamp : Time)
  : TransformStamped F :=
  mkTransformStamped
    (mkHeader stamp (ros_namespace ++ "/base_link"))
    (ros_namespace ++ "/" ++ camera_name ++ "/pose")
    (transform_of_isometry tf_vehicle_camera_ENU).

Definition world_trans (ros_namespace : string) (stamp : Time) : TransformStamped F :=
  mkTransformStamped
    (mkHeader stamp "world")
    (ros_namespace ++ "/base_link")
    (transform_of_isometry tf_world_vehicle_ENU).
End WithScalar.
End ImageCb.

(** Inside [step_autonomy], in the loop over the camera names. *)
Module StepImages.
Section WithScalar.
Context {F : Type} `{Scalar F}.
Local Open Scope scalar_scope.
Import Eigen.
Variable a : AirSimImageType.t F.

Definition xTo : F := of_Z (-180) * (M_PI / of_Z 180).
Definition zTo : F := of_Z 90 * (M_PI / of_Z 180).

Definition vehicle_position_ENU : Vector3 F :=
  let p := position (AirSimImageType.vehicle_pose_world_NED a) in
  mkVector3 (v_y p) (v_x p) (of_Z (-1) * v_z p).

Definition vehicle_orientation_ENU : Quaternion F :=
  let NED_quat := orientation (AirSimImageType.vehicle_pose_world_NED a) in
  let vehicle_orientation_ENU := angle_axis_mul (mkAngleAxis xTo UnitX) NED_quat in
  angle_axis_mul (mkAngleAxis zTo UnitZ) vehicle_orientation_ENU.

Definition tf_world_vehicle_ENU : Isometry3 F :=
  translation_mul_quat vehicle_position_ENU vehicle_orientation_ENU.

Definition camera_position_world_ENU : Vector3 F :=
  let p := position (AirSimImageType.camera_pose_world_NED a) in
  mkVector3 (v_y p) (v_x p) (of_Z (-1) * v_z p).

Definition camera_orientation_world_ENU : Quaternion F :=
  let NED_quat_camera := orientation (AirSimImageType.camera_pose_world_NED a) in
  let camera_orientation_world_ENU :=
    angle_axis_mul (mkAngleAxis xTo UnitX) NED_quat_camera in
  angle_axis_mul (mkAngleAxis zTo UnitZ) camera_orientation_world_ENU.

Definition tf_world_camera_ENU : Isometry3 F :=
  translation_mul_quat camera_position_world_ENU camera_orientation_world_ENU.

Definition tf_vehicle_camera_ENU : Isometry3 F :=
  compose (inverse tf_world_vehicle_ENU) tf_world_camera_ENU.

Definition image_trans_ (ros_namespace cam_name : string) (stamp : Time)
  : TransformStamped F :=
  mkTransformStamped
    (mkHeader stamp (ros_namespace ++ "/base_link"))
    (ros_namespace ++ "/" ++ cam_name ++ "/pose")
    (transform_of_isometry tf_vehicle_camera_ENU).

Definition world_trans (ros_namespace : string) (stamp : Time) : TransformStamped F :=
  mkTransformStamped
    (mkHeader stamp "world")
    (ros_namespace ++ "/base_link")
    (transform_of_isometry tf_world_vehicle_ENU).
End WithScalar.
End StepImages.

(** Inside [step_autonomy], in the lidar branch. *)
Module StepLidar.
Section WithScalar.
Context {F : Type} `{Scalar F}.
Local Open Scope scalar_scope.
Import Eigen.
Variable lidar_data : AirSimLidarType.t F.

Definition xTo : F := of_Z (-180) * (M_PI / of_Z 180).
Definition zTo : F := of_Z 90 * (M_PI / of_Z 180).

Definition vehicle_position_ENU : Vector3 F :=
  let p := position (AirSimLidarType.vehicle_pose_world_NED lidar_data) in
  mkVector3 (v_y p) (v_x p) (of_Z (-1) * v_z p).

Definition vehicle_orientation_ENU : Quaternion F :=
  let NED_quat := orientation (AirSimLidarType.vehicle_pose_world_NED lidar_data) in
  let vehicle_orientation_ENU := angle_axis_mul (mkAngleAxis xTo UnitX) NED_quat in
  angle_axis_mul (mkAngleAxis zTo UnitZ) vehicle_orientation_ENU.

Definition tf_world_vehicle_ENU : Isometry3 F :=
  translation_mul_quat vehicle_position_ENU vehicle_orientation_ENU.

Definition lidar_position_world_ENU : Vector3 F :=
  let p := position (AirSimLidarType.lidar_pose_world_NED lidar_data) in
  mkVector3 (v_y p) (v_x p) (of_Z (-1) * v_z p).

Definition lidar_orientation_world_ENU : Quaternion F :=
  let NED_quat_lidar := orientation (AirSimLidarType.lidar_pose_world_NED lidar_data) in
  let lidar_orientation_world_ENU :=
    angle_axis_mul (mkAngleAxis xTo UnitX) NED_quat_lidar in
  angle_axis_mul (mkAngleAxis zTo UnitZ) lidar_orientation_world_ENU.

Definition tf_world_lidar_ENU : Isometry3 F :=
  translation_mul_quat lidar_position_world_ENU lidar_orientation_world_ENU.

Definition tf_vehicle_lidar_ENU : Isometry3 F :=
  compose (inverse tf_world_vehicle_ENU) tf_world_lidar_ENU.

Definition laser_trans_ (ros_namespace : string) (stamp : Time) : TransformStamped F :=
  mkTransformStamped
    (mkHeader stamp (ros_namespace ++ "/base_link"))
    (ros_namespace ++ "/base_laser")
    (transform_of_isometry tf_vehicle_lidar_ENU).

Definition world_trans (ros_namespace : string) (stamp : Time) : TransformStamped F :=
  mkTransformStamped
    (mkHeader stamp "world")
    (ros_namespace ++ "/base_link")
    (transform_of_isometry tf_world_vehicle_ENU).
End WithScalar.
End StepLidar.

(* ================================================================== *)
(** * The point-cloud message *)

Local Open Scope Z_scope.

(** Conversion to [uint32_t]. *)
Definition uint32 (z : Z) : Z := z mod 2 ^ 32.

(** A default-constructed [sensor_msgs::PointCloud2]. *)
Definition empty_PointCloud2 : PointCloud2.t :=
  PointCloud2.mk (mkHeader 0 "") 0 0 [] false 0 0 [] false.

Definition with_header (h : Header) (m : PointCloud2.t) : PointCloud2.t :=
  PointCloud2.mk h (PointCloud2.height m) (PointCloud2.width m) (PointCloud2.fields m)
    (PointCloud2.is_bigendian m) (PointCloud2.point_step m) (PointCloud2.row_step m)
    (PointCloud2.data m) (PointCloud2.is_dense m).

(** [for (d = 0; d < fields.size(); ++d, offset += 4)]: the fields with
    offset, datatype and count set, and [offset] after the loop. *)
Fixpoint fill_fields (fs : list PointField) (offset : Z) : list PointField * Z :=
  match fs with
  | [] => ([], offset)
  | f :: fs' =>
      let '(rest, offset') := fill_fields fs' (offset + 4) in
      (mkPointField (name f) (uint32 offset) FLOAT32 1 :: rest, offset')
  end.

(** The message [step_autonomy] builds from the buffered lidar sample. *)
Definition lidar_msg (frame : string) (stamp : Time) (cloud : list float) : PointCloud2.t :=
  let hdr := mkHeader stamp frame in
  let size := Z.of_nat (List.length cloud) in
  if size >? 3 then
    let height := 1 in
    let width := uint32 (size / 3) in
    (* fields.resize(3), then the three names *)
    let fields := [mkPointField "x" 0 0 0; mkPointField "y" 0 0 0; mkPointField "z" 0 0 0] in
    let '(fields, offset) := fill_fields fields 0 in
    let point_step := uint32 offset in
    let row_step := uint32 (point_step * width) in
    let data_std := cloud in
    PointCloud2.mk hdr height width fields false point_step row_step
      (flat_map bytes_of_float data_std) true
  else
    with_header hdr empty_PointCloud2.

(* ================================================================== *)
(** * What the plugin takes from the rest of SCRIMMAGE *)

(** [scrimmage::get<T>(key, params, default)] of [ParseUtils.h], which is
    only called by this file: taken as given. *)
Definition Params : Type := list (string * string).

Class ParseUtils : Type := {
  get_bool : string -> Params -> string -> bool;
  get_string : string -> Params -> string -> string
}.

(** [parent_->state_truth()] and [parent_->id().id()]. *)
Record State (F : Type) : Type :=
  mkState { pos : Eigen.Vector3 F; quat : Eigen.Quaternion F }.

Record Entity (F : Type) : Type := mkEntity { id : Z; state_truth : State F }.

(* ================================================================== *)
(** * The routines of [ROSAirSim.cpp] *)

Section Routines.
Context {F : Type} `{Scalar F}.
Local Open Scope routine_scope.
Local Open Scope string_scope.

Definition set_flags (show pub_image pub_lidar : bool) (o : ROSAirSim F) :=
  mkROSAirSim show pub_image pub_lidar
    (ros_name_ o) (ros_namespace_ o) (base_scan_pub_ o) (img_publishers_ o)
    (camera_names_ o) (image_data_ o) (lidar_data_ o) (img_topic_published_ o)
    (world_trans_ o).

Definition set_ros_names (ros_name ros_namespace : string) (o : ROSAirSim F) :=
  mkROSAirSim (show_camera_images_ o) (pub_image_data_ o) (pub_lidar_data_ o)
    ros_name ros_namespace (base_scan_pub_ o) (img_publishers_ o)
    (camera_names_ o) (image_data_ o) (lidar_data_ o) (img_topic_published_ o)
    (world_trans_ o).

Definition set_base_scan_pub_ (v : Publisher) (o : ROSAirSim F) :=
  mkROSAirSim (show_camera_images_ o) (pub_image_data_ o) (pub_lidar_data_ o)
    (ros_name_ o) (ros_namespace_ o) v (img_publishers_ o)
    (camera_names_ o) (image_data_ o) (lidar_data_ o) (img_topic_published_ o)
    (world_trans_ o).

Definition when (b : bool) (c : M F unit) : M F unit := if b then c else ret tt.

(** [if (!ros::isInitialized()) ros::init(...)]. *)
Definition ros_init : M F unit :=
  fun s =>
    let w := world s in
    if ros_isInitialized w then ((tt, s), [])
    else ((tt, mkSt (self s) (mkWorld (clock w) (now_calls w) true)), [EvRosInit]).

(** [cv_bridge::CvImage(header, "" or "rgb8", a.img).toImageMsg()]:
    depth images come in as one-channel float arrays. *)
Definition toImageMsg (header : Header) (a : AirSimImageType.t F) : Image.t :=
  if pixels_as_float (AirSimImageType.camera_config a)
  then Image.mk header "" (AirSimImageType.img a)
  else Image.mk header "rgb8" (AirSimImageType.img a).

(** ** The callbacks installed by [init] *)

Definition airsim_lidar_cb (msg_data : AirSimLidarType.t F) : M F unit :=
  if (List.length (point_cloud (AirSimLidarType.lidar_data msg_data)) <? 3)%nat
  then ret tt                       (* return if empty message *)
  else update (set_lidar_data_ msg_data).

(** The body of the loop over the images of the first message. *)
Definition create_topic (a : AirSimImageType.t F) : M F unit :=
  o <- this ;;
  let camera_name := to_lower_copy (cam_name (AirSimImageType.camera_config a)) in
  let image_type_name :=
    to_lower_copy (img_type_name (AirSimImageType.camera_config a)) in
  let topic_name :=
    "/" ++ ros_namespace_ o ++ "/" ++ camera_name ++ "/" ++ image_type_name in
  pub <- advertise topic_name ;;
  update (fun o => set_img_publishers_ (img_publishers_ o ++ [pub]) o) ;;
  stamp <- now ;;
  let header := mkHeader stamp (ros_namespace_ o ++ "/" ++ camera_name ++ "/images") in
  let img_msg := toImageMsg header a in
  o <- this ;;
  (* publish to the last publisher added to img_publishers_ *)
  emit (EvPublishImage (last (img_publishers_ o) pub) img_msg) ;;
  let old_cam_name :=
    existsb (fun str => String.eqb str camera_name) (camera_names_ o) in
  if negb old_cam_name then
    update (fun o => set_camera_names_ (camera_names_ o ++ [camera_name]) o) ;;
    stamp <- now ;;
    let image_trans_ := ImageCb.image_trans_ a (ros_namespace_ o) camera_name stamp in
    tf_world <-
      (if negb (pub_lidar_data_ o) then
         stamp <- now ;;
         let w := ImageCb.world_trans a (ros_namespace_ o) stamp in
         update (set_world_trans_ w) ;;
         ret [w]
       else ret []) ;;
    sendTransform (image_trans_ :: tf_world)
  else ret tt.

Definition airsim_image_cb (msg_data : list (AirSimImageType.t F)) : M F unit :=
  update (set_image_data_ msg_data) ;;
  o <- this ;;
  if (List.length (image_data_ o) =? 0)%nat then ret tt   (* return if empty message *)
  else
    lock ;;
    img_topic_published <- read_img_topic_published_ ;;
    unlock ;;
    if negb img_topic_published then
      for_each (image_data_ o) create_topic ;;
      lock ;;
      write_img_topic_published_ true ;;
      unlock ;;
      ret tt
    else ret tt.

(** ** [init] *)

Definition init `{ParseUtils} (params : Params) (parent_ : Entity F) : M F unit :=
  let show_camera_images := get_bool "show_camera_images" params "false" in
  let pub_image_data := get_bool "pub_image_data" params "true" in
  let pub_lidar_data := get_bool "pub_lidar_data" params "true" in
  update (set_flags show_camera_images pub_image_data pub_lidar_data) ;;
  emit (EvCout " ") ;;
  when pub_image_data (emit (EvCout "Publishing AirSim images to ROS.")) ;;
  when pub_lidar_data (emit (EvCout "Publishing AirSim LIDAR data to ROS.")) ;;
  when show_camera_images
    (emit (EvCout "ROSAirSim: Showing camera images in OpenCV windows.")) ;;
  ros_init ;;
  let ros_name := get_string "ros_namespace_prefix" params "robot" in
  let ros_namespace := ros_name ++ to_string (id parent_) in
  update (set_ros_names ros_name ros_namespace) ;;
  base_scan_pub <- advertise (ros_namespace ++ "/base_scan") ;;
  update (set_base_scan_pub_ base_scan_pub) ;;
  let state := state_truth parent_ in
  stamp <- now ;;
  let w :=
    mkTransformStamped (mkHeader stamp "world") (ros_namespace ++ "/base_link")
      (mkTransform (Eigen.v_x (pos state)) (Eigen.v_y (pos state)) (Eigen.v_z (pos state))
                   (Eigen.q_x (quat state)) (Eigen.q_y (quat state))
                   (Eigen.q_z (quat state)) (Eigen.q_w (quat state))) in
  update (set_world_trans_ w) ;;
  sendTransform [w] ;;
  when pub_lidar_data (emit (EvSubscribe "LocalNetwork" "AirSimLidar")) ;;
  when pub_image_data (emit (EvSubscribe "LocalNetwork" "AirSimImages")).

(** ** [step_autonomy] *)

(** [for (auto pub : img_publishers_)]: publish to the first publisher
    whose topic matches, then [break]. *)
Fixpoint publish_to_match (pubs : list Publisher) (topic_name_match : string)
         (img_msg : Image.t) : M F unit :=
  match pubs with
  | [] => ret tt
  | pub :: pubs' =>
      if String.eqb (getTopic pub) topic_name_match
      then emit (EvPublishImage pub img_msg)
      else publish_to_match pubs' topic_name_match img_msg
  end.

(** The body of the first loop over the buffered images. *)
Definition publish_image (a : AirSimImageType.t F) : M F unit :=
  o <- this ;;
  let camera_name := to_lower_copy (cam_name (AirSimImageType.camera_config a)) in
  let image_type_name :=
    to_lower_copy (img_type_name (AirSimImageType.camera_config a)) in
  let topic_name_match :=
    "/" ++ ros_namespace_ o ++ "/" ++ camera_name ++ "/" ++ image_type_name in
  stamp <- now ;;
  let header := mkHeader stamp (ros_namespace_ o ++ "/" ++ camera_name ++ "/images") in
  publish_to_match (img_publishers_ o) topic_name_match (toImageMsg header a) ;;
  (* draw image *)
  when (show_camera_images_ o)
    (let window_name :=
       AirSimImageType.vehicle_name a ++ "_"
         ++ cam_name (AirSimImageType.camera_config a) ++ "_"
         ++ img_type_name (AirSimImageType.camera_config a) in
     emit (EvImshow window_name
             (pixels_as_float (AirSimImageType.camera_config a))
             (AirSimImageType.img a)) ;;
     emit (EvWaitKey 1)).

(** [for (a : image_data_) if (a.camera_config.cam_name == cam_name)
    { ...; break; }]: what is pushed on [tf_msg_vec_] for one camera name. *)
Fixpoint camera_transform (cam : string) (images : list (AirSimImageType.t F))
  : M F (list (TransformStamped F)) :=
  match images with
  | [] => ret []
  | a :: images' =>
      if String.eqb (cam_name (AirSimImageType.camera_config a)) cam then
        o <- this ;;
        stamp <- now ;;
        let image_trans_ := StepImages.image_trans_ a (ros_namespace_ o) cam stamp in
        if negb (pub_lidar_data_ o) then
          stamp <- now ;;
          let w := StepImages.world_trans a (ros_namespace_ o) stamp in
          update (set_world_trans_ w) ;;
          ret [image_trans_; w]
        else ret [image_trans_]
      else camera_transform cam images'
  end.

(** [for (std::string cam_name : camera_names_)]. *)
Fixpoint camera_transforms (names : list string) (images : list (AirSimImageType.t F))
  : M F (list (TransformStamped F)) :=
  match names with
  | [] => ret []
  | cam :: names' =>
      pushed <- camera_transform cam images ;;
      rest <- camera_transforms names' images ;;
      ret (pushed ++ rest)%list
  end.

(** The lidar branch: the cloud is published, and the laser and world
    transforms are pushed on [tf_msg_vec_]. *)
Definition publish_lidar : M F (list (TransformStamped F)) :=
  o <- this ;;
  stamp <- now ;;
  let msg :=
    lidar_msg (ros_namespace_ o ++ "/base_laser") stamp
      (point_cloud (AirSimLidarType.lidar_data (lidar_data_ o))) in
  emit (EvPublishCloud (base_scan_pub_ o) msg) ;;
  stamp <- now ;;
  let laser_trans_ := StepLidar.laser_trans_ (lidar_data_ o) (ros_namespace_ o) stamp in
  stamp <- now ;;
  let w := StepLidar.world_trans (lidar_data_ o) (ros_namespace_ o) stamp in
  update (set_world_trans_ w) ;;
  ret [laser_trans_; w].

(** The image branch: the buffered images are published, and a
    transform is pushed on [tf_msg_vec_] for each camera name. *)
Definition update_images : M F (list (TransformStamped F)) :=
  o <- this ;;
  for_each (image_data_ o) publish_image ;;
  camera_transforms (camera_names_ o) (image_data_ o).

Definition step_autonomy (t dt : F) : M F bool :=
  emit EvSpinOnce ;;      (* check for new ROS messages *)
  lock ;;
  img_topic_published <- read_img_topic_published_ ;;
  unlock ;;
  o <- this ;;
  tf_images <-
    (if pub_image_data_ o && img_topic_published then update_images else ret []) ;;
  o <- this ;;
  tf_lidar <- (if pub_lidar_data_ o then publish_lidar else ret []) ;;
  sendTransform (tf_images ++ tf_lidar)%list ;;
  ret true.

End Routines.

(* ================================================================== *)
(** * Runs of the plugin *)

(** What the simulator does with the plugin after [init]: it delivers an
    image message or a lidar message to the callback, or it ticks. *)
Inductive Action (F : Type) : Type :=
| ImageMsg (data : list (AirSimImageType.t F))
| LidarMsg (data : AirSimLidarType.t F)
| Tick (t dt : F).

Section Runs.
Context {F : Type} `{Scalar F}.

Definition exec (a : Action F) : M F unit :=
  match a with
  | ImageMsg data => airsim_image_cb data
  | LidarMsg data => airsim_lidar_cb data
  | Tick t dt => bind (step_autonomy t dt) (fun _ => ret tt)
  end.

Fixpoint run (acts : list (Action F)) : M F unit :=
  match acts with
  | [] => ret tt
  | a :: acts' => bind (exec a) (fun _ => run acts')
  end.

(** The states a run goes through, the first one included. *)
Fixpoint states_of (acts : list (Action F)) (s : St F) : list (St F) :=
  s :: match acts with
       | [] => []
       | a :: acts' => states_of acts' (state_after (exec a) s)
       end.

Definition nonempty_image_msg (a : Action F) : bool :=
  match a with
  | ImageMsg (_ :: _) => true
  | _ => false
  end.

(** How often the flag goes from [from] to [to] between two
    consecutive states of a run. *)
Fixpoint flag_changes (from to : bool) (flags : list bool) : nat :=
  match flags with
  | b1 :: ((b2 :: _) as rest) =>
      ((if Bool.eqb b1 from && Bool.eqb b2 to then 1 else 0)
       + flag_changes from to rest)%nat
  | _ => 0%nat
  end.

Definition flags_of (acts : list (Action F)) (s : St F) : list bool :=
  map (fun s => img_topic_published_ (self s)) (states_of acts s).

(** ** The lock discipline, read off the events *)

(** [guarded held es]: starting with the mutex held or not, no event of
    [es] locks a held mutex, unlocks a free one or touches the flag
    while the mutex is free, and the mutex is free in the end. *)
Fixpoint guarded (held : bool) (es : list (Event F)) : bool :=
  match es with
  | [] => negb held
  | EvLock :: es' => negb held && guarded true es'
  | EvUnlock :: es' => held && guarded false es'
  | EvReadFlag _ :: es' => held && guarded held es'
  | EvWriteFlag _ :: es' => held && guarded held es'
  | _ :: es' => guarded held es'
  end.

(** Whether the mutex is held after the events [es]. *)
Fixpoint held_after (held : bool) (es : list (Event F)) : bool :=
  match es with
  | [] => held
  | EvLock :: es' => held_after true es'
  | EvUnlock :: es' => held_after false es'
  | _ :: es' => held_after held es'
  end.

Definition touches_flag (e : Event F) : bool :=
  match e with
  | EvReadFlag _ | EvWriteFlag _ => true
  | _ => false
  end.

Definition mutex_or_flag (e : Event F) : bool :=
  match e with
  | EvLock | EvUnlock | EvReadFlag _ | EvWriteFlag _ => true
  | _ => false
  end.

(** No event of [es] concerns the mutex or the flag. *)
Definition silent (es : list (Event F)) : bool :=
  forallb (fun e => negb (mutex_or_flag e)) es.

(** Every access to the flag in [es] comes after a [lock] that has
    not been undone by an [unlock]. *)
Definition under_lock (es : list (Event F)) : Prop :=
  forall pre e post,
    es = pre ++ e :: post -> touches_flag e = true -> held_after false pre = true.

(** ** Projections of the events *)

Definition image_publishes (es : list (Event F)) : list (Publisher * Image.t) :=
  flat_map (fun e => match e with EvPublishImage p m => [(p, m)] | _ => [] end) es.

Definition cloud_publishes (es : list (Event F)) : list (Publisher * PointCloud2.t) :=
  flat_map (fun e => match e with EvPublishCloud p m => [(p, m)] | _ => [] end) es.

Definition broadcasts (es : list (Event F)) : list (list (TransformStamped F)) :=
  flat_map (fun e => match e with EvSendTransform l => [l] | _ => [] end) es.

Definition advertised (es : list (Event F)) : list string :=
  flat_map (fun e => match e with EvAdvertise t => [t] | _ => [] end) es.

End Runs.

(* ================================================================== *)
(** * The axis convention in the words of the specification *)

Module Spec.
Import Eigen.
Local Open Scope R_scope.

Definition deg (d : R) : R := d * PI / 180.

(** A rotation by [theta] about X, and about Z, as unit quaternions. *)
Definition Rx (theta : R) : Quaternion R :=
  mkQuaternion (cos (theta / 2)) (sin (theta / 2)) 0 0.
Definition Rz (theta : R) : Quaternion R :=
  mkQuaternion (cos (theta / 2)) 0 0 (sin (theta / 2)).

(** Swap X and Y, negate Z. *)
Definition position_ENU (p : Vector3 R) : Vector3 R :=
  mkVector3 (v_y p) (v_x p) (- v_z p).

(** [q_ENU = Rz(+90deg) * Rx(-180deg) * q_NED]. *)
Definition orientation_ENU (q : Quaternion R) : Quaternion R :=
  quat_mul (quat_mul (Rz (deg 90)) (Rx (deg (-180)))) q.

Definition pose_ENU (p : Pose R) : Vector3 R * Quaternion R :=
  (position_ENU (position p), orientation_ENU (orientation p)).
End Spec.

(* ================================================================== *)
(** * What a tick is expected to publish *)

Section Expected.
Context {F : Type} `{Scalar F}.
Local Open Scope string_scope.

(** The topic an image is published under. *)
Definition image_topic (o : ROSAirSim F) (a : AirSimImageType.t F) : string :=
  "/" ++ ros_namespace_ o ++ "/"
    ++ to_lower_copy (cam_name (AirSimImageType.camera_config a)) ++ "/"
    ++ to_lower_copy (img_type_name (AirSimImageType.camera_config a)).

Definition image_frame (o : ROSAirSim F) (a : AirSimImageType.t F) : string :=
  ros_namespace_ o ++ "/"
    ++ to_lower_copy (cam_name (AirSimImageType.camera_config a)) ++ "/images".

(** The first publisher advertised under a topic, if there is one. *)
Definition first_publisher (pubs : list Publisher) (topic : string) : option Publisher :=
  find (fun pub => String.eqb (getTopic pub) topic) pubs.

(** One message per buffered image that has a publisher, stamped with
    consecutive readings of the clock starting at the [n]-th. *)
Fixpoint expected_image_publishes (o : ROSAirSim F) (clk : nat -> Time) (n : nat)
         (images : list (AirSimImageType.t F)) : list (Publisher * Image.t) :=
  match images with
  | [] => []
  | a :: images' =>
      match first_publisher (img_publishers_ o) (image_topic o a) with
      | Some pub => [(pub, toImageMsg (mkHeader (clk n) (image_frame o a)) a)]
      | None => []
      end ++ expected_image_publishes o clk (S n) images'
  end.

(** The OpenCV calls of the tick for one image. *)
Definition draw_events (o : ROSAirSim F) (a : AirSimImageType.t F) : list (Event F) :=
  if show_camera_images_ o then
    [EvImshow (AirSimImageType.vehicle_name a ++ "_"
                 ++ cam_name (AirSimImageType.camera_config a) ++ "_"
                 ++ img_type_name (AirSimImageType.camera_config a))
              (pixels_as_float (AirSimImageType.camera_config a))
              (AirSimImageType.img a);
     EvWaitKey 1]
  else [].

(** All events of the first loop of the tick. *)
Fixpoint expected_image_events (o : ROSAirSim F) (clk : nat -> Time) (n : nat)
         (images : list (AirSimImageType.t F)) : list (Event F) :=
  match images with
  | [] => []
  | a :: images' =>
      (match first_publisher (img_publishers_ o) (image_topic o a) with
       | Some pub => [EvPublishImage pub (toImageMsg (mkHeader (clk n) (image_frame o a)) a)]
       | None => []
       end ++ draw_events o a ++ expected_image_events o clk (S n) images')%list
  end.

(** C6 as it is worded: every buffered image goes out on a publisher
    of its topic, and the lidar branch publishes one cloud and
    broadcasts the laser and world transforms. *)
Definition republishes_as_worded (s : St F) (t dt : F) : Prop :=
  let o := self s in
  let es := events_of (step_autonomy t dt) s in
  (pub_image_data_ o = true -> img_topic_published_ o = true ->
   forall a, In a (image_data_ o) ->
     exists pub msg, In (pub, msg) (image_publishes es)
                     /\ getTopic pub = image_topic o a
                     /\ Image.image msg = AirSimImageType.img a)
  /\ (pub_lidar_data_ o = true ->
      (exists msg, cloud_publishes es = [(base_scan_pub_ o, msg)])
      /\ exists tf laser w, broadcasts es = [tf ++ [laser; w]]%list
          /\ child_frame_id laser = ros_namespace_ o ++ "/base_laser"
          /\ frame_id (header w) = "world").
End Expected.

(** C8 as it is worded, for the message built from a cloud. *)
Definition cloud_message_as_worded (cloud : list float) (msg : PointCloud2.t) : Prop :=
  let n := Z.of_nat (List.length cloud) in
  (3 < n ->
     PointCloud2.height msg = 1
     /\ PointCloud2.width msg = n / 3
     /\ map (fun f => (name f, datatype f, offset f)) (PointCloud2.fields msg)
        = [("x"%string, FLOAT32, 0); ("y"%string, FLOAT32, 4); ("z"%string, FLOAT32, 8)]
     /\ PointCloud2.point_step msg = 12
     /\ PointCloud2.row_step msg = 12 * PointCloud2.width msg
     /\ PointCloud2.data msg = flat_map bytes_of_float cloud)
  /\ (n <= 3 ->
      PointCloud2.height msg = 0 /\ PointCloud2.width msg = 0
      /\ PointCloud2.fields msg = [] /\ PointCloud2.data msg = []).

(* ================================================================== *)
(** * Vocabulary of the proofs *)

Section Vocabulary.
Context {F : Type} `{Scalar F}.

(** Every member but [world_trans_] is the same in [o] and [o']. *)
Definition keeps_members (o o' : ROSAirSim F) : Prop :=
  o' = set_world_trans_ (world_trans_ o') o.

(** The clock is only ever advanced. *)
Definition advance (k : nat) (w : World) : World :=
  mkWorld (clock w) (k + now_calls w) (ros_isInitialized w).

(** What a tick may do to the state between its first and last line:
    rewrite [world_trans_] and read the clock. *)
Definition evolves (s s' : St F) : Prop :=
  keeps_members (self s) (self s')
  /\ exists k, world s' = advance k (world s).

(** The image branch and the lidar branch of a tick, as guarded in
    [step_autonomy]. *)
Definition image_branch (o : ROSAirSim F) : M F (list (TransformStamped F)) :=
  if pub_image_data_ o && img_topic_published_ o then update_images else ret [].

Definition lidar_branch (o : ROSAirSim F) : M F (list (TransformStamped F)) :=
  if pub_lidar_data_ o then publish_lidar else ret [].

End Vocabulary.

(* ================================================================== *)
(** * Sample inputs *)

Module Examples.
Local Open Scope string_scope.
Local Open Scope R_scope.

Definition pose_a : Pose R :=
  mkPose (Eigen.mkVector3 1 2 3) (Eigen.mkQuaternion 1 0 0 0).
Definition pose_b : Pose R :=
  mkPose (Eigen.mkVector3 4 5 6) (Eigen.mkQuaternion 0 1 0 0).

Definition mat0 : Mat := mkMat 1 1 [Byte.x00; Byte.x01; Byte.x02].

Definition img_front : AirSimImageType.t R :=
  AirSimImageType.mk "robot1" (mkCameraConfig "front" "scene" false) mat0 pose_a pose_b.
Definition img_rear : AirSimImageType.t R :=
  AirSimImageType.mk "robot1" (mkCameraConfig "rear" "depth" true) mat0 pose_a pose_b.

Definition f0 : float := mkFloat Byte.x00 Byte.x00 Byte.x80 Byte.x3f.

Definition lidar_of (cloud : list float) : AirSimLidarType.t R :=
  AirSimLidarType.mk (mkLidarData cloud) pose_a pose_b.

Definition transform0 : TransformStamped R :=
  mkTransformStamped (mkHeader 0%Z "world") "robot1/base_link"
    (mkTransform 0 0 0 0 0 0 1).

(** A plugin as [init] leaves it (namespace robot1, images and lidar
    both published), before any message has arrived. *)
Definition plugin0 : ROSAirSim R :=
  mkROSAirSim false true true "robot" "robot1" (mkPublisher "robot1/base_scan")
    [] [] [] (lidar_of []) false transform0.

Definition world0 : World := mkWorld (fun n => Z.of_nat n) 1 true.

Definition st0 : St R := mkSt plugin0 world0.

(** Both kinds of publishing switched off. *)
Definition plugin_off : ROSAirSim R :=
  mkROSAirSim false false false "robot" "robot1" (mkPublisher "robot1/base_scan")
    [mkPublisher "/robot1/front/scene"] ["front"] [img_front] (lidar_of [f0; f0; f0])
    true transform0.

(** A buffered image list, before an empty message arrives. *)
Definition plugin_buffered : ROSAirSim R :=
  mkROSAirSim false true true "robot" "robot1" (mkPublisher "robot1/base_scan")
    [mkPublisher "/robot1/front/scene"] ["front"] [img_front] (lidar_of [])
    true transform0.

(** The plugin after the messages [[img_front]] and then [[img_rear]]:
    the publishers are those of the first message, the buffer holds the
    second. *)
Definition plugin_two_messages : ROSAirSim R :=
  mkROSAirSim false true true "robot" "robot1" (mkPublisher "robot1/base_scan")
    [mkPublisher "/robot1/front/scene"] ["front"] [img_rear] (lidar_of [])
    true transform0.

(** The plugin with a cloud of [cloud] in its buffer. *)
Definition plugin_with_cloud (cloud : list float) : ROSAirSim R :=
  mkROSAirSim false true true "robot" "robot1" (mkPublisher "robot1/base_scan")
    [] [] [] (lidar_of cloud) false transform0.

(** A cloud large enough for [12 * width] to leave 32 bits. *)
Definition huge_cloud : list float := repeat f0 (Z.to_nat 1073741826).
End Examples.

(* ================================================================== *)
(** * Further vocabulary: names, samples, subscriptions *)

Section MoreVocabulary.
Context {F : Type} `{Scalar F}.

(** A name that [to_lower_copy] leaves as it is. *)
Definition lower_case (s : string) : Prop := to_lower_copy s = s.

(** The camera name of an image as the callback stores it. *)
Definition camera_name_of (a : AirSimImageType.t F) : string :=
  to_lower_copy (cam_name (AirSimImageType.camera_config a)).

(** The camera names after the topic-creating loop has gone over
    [images]: a name is appended unless it is there already. *)
Fixpoint note_cameras (names : list string) (images : list (AirSimImageType.t F))
  : list string :=
  match images with
  | [] => names
  | a :: images' =>
      note_cameras
        (if existsb (fun str => String.eqb str (camera_name_of a)) names
         then names else names ++ [camera_name_of a])
        images'
  end.

(** The image list in the buffer at the end of a run: that of the last
    image message, whatever it holds. *)
Fixpoint latest_images (acts : list (Action F)) (buffered : list (AirSimImageType.t F))
  : list (AirSimImageType.t F) :=
  match acts with
  | [] => buffered
  | ImageMsg data :: acts' => latest_images acts' data
  | _ :: acts' => latest_images acts' buffered
  end.

(** The lidar sample in the buffer at the end of a run: that of the
    last lidar message with three floats or more. *)
Fixpoint latest_lidar (acts : list (Action F)) (buffered : AirSimLidarType.t F)
  : AirSimLidarType.t F :=
  match acts with
  | [] => buffered
  | LidarMsg data :: acts' =>
      latest_lidar acts'
        (if (List.length (point_cloud (AirSimLidarType.lidar_data data)) <? 3)%nat
         then buffered else data)
  | _ :: acts' => latest_lidar acts' buffered
  end.

(** The members [init] sets and nothing else writes. *)
Definition same_setup (o o' : ROSAirSim F) : Prop :=
  show_camera_images_ o' = show_camera_images_ o
  /\ pub_image_data_ o' = pub_image_data_ o
  /\ pub_lidar_data_ o' = pub_lidar_data_ o
  /\ ros_name_ o' = ros_name_ o
  /\ ros_namespace_ o' = ros_namespace_ o
  /\ base_scan_pub_ o' = base_scan_pub_ o.

(** The number of ticks in a run. *)
Fixpoint ticks_in (acts : list (Action F)) : nat :=
  match acts with
  | [] => 0
  | Tick _ _ :: acts' => S (ticks_in acts')
  | _ :: acts' => ticks_in acts'
  end.

Definition subscriptions (es : list (Event F)) : list (string * string) :=
  flat_map (fun e => match e with EvSubscribe n t => [(n, t)] | _ => [] end) es.

Definition ros_inits (es : list (Event F)) : list unit :=
  flat_map (fun e => match e with EvRosInit => [tt] | _ => [] end) es.

(** What a subscriber sees of a published image, the stamp apart. *)
Definition seen (pm : Publisher * Image.t) : string * string * string * Mat :=
  (getTopic (fst pm), frame_id (Image.header (snd pm)),
   Image.encoding (snd pm), Image.image (snd pm)).

Definition sent_of (o : ROSAirSim F) (a : AirSimImageType.t F)
  : string * string * string * Mat :=
  (image_topic o a, image_frame o a,
   (if pixels_as_float (AirSimImageType.camera_config a) then "" else "rgb8")%string,
   AirSimImageType.img a).

End MoreVocabulary.

(** Quaternions over the reals. *)
Module Quat.
Import Eigen.
Local Open Scope R_scope.

Definition norm2 (q : Quaternion R) : R :=
  q_w q * q_w q + q_x q * q_x q + q_y q * q_y q + q_z q * q_z q.

Definition unit (q : Quaternion R) : Prop := norm2 q = 1.

(** The transform of a frame onto itself. *)
Definition identity : Transform R := mkTransform 0 0 0 0 0 0 1.

Definition I3 : Matrix3 R := mkMatrix3 1 0 0 0 1 0 0 0 1.

(** The other quaternion of the same rotation. *)
Definition qneg (q : Quaternion R) : Quaternion R :=
  mkQuaternion (- q_w q) (- q_x q) (- q_y q) (- q_z q).

Definition rotation_of (t : Transform R) : Quaternion R :=
  mkQuaternion (rotation_w t) (rotation_x t) (rotation_y t) (rotation_z t).

Definition translation_of (t : Transform R) : Vector3 R :=
  mkVector3 (translation_x t) (translation_y t) (translation_z t).
End Quat.

Module MoreExamples.
Local Open Scope string_scope.
Local Open Scope R_scope.

(** An image whose camera name is spelled with a capital. *)
Definition img_Front : AirSimImageType.t R :=
  AirSimImageType.mk "robot1" (mkCameraConfig "Front" "Scene" false) Examples.mat0
    Examples.pose_a Examples.pose_b.

(** A camera sitting at the origin of the vehicle. *)
Definition img_at_vehicle : AirSimImageType.t R :=
  AirSimImageType.mk "robot1" (mkCameraConfig "front" "scene" false) Examples.mat0
    Examples.pose_a Examples.pose_a.

(** As [Examples.plugin0], lidar publishing off. *)
Definition plugin_images_only : ROSAirSim R :=
  mkROSAirSim false true false "robot" "robot1" (mkPublisher "robot1/base_scan")
    [] [] [] (Examples.lidar_of []) false Examples.transform0.

(** A plugin object before [init]. *)
Definition plugin_fresh : ROSAirSim R :=
  mkROSAirSim false false false "" "" (mkPublisher "")
    [] [] [] (Examples.lidar_of []) false Examples.transform0.

(** The parent entity: number 1, at (7, 8, 9), not rotated. *)
Definition parent1 : Entity R :=
  mkEntity 1 (mkState (Eigen.mkVector3 7 8 9) (Eigen.mkQuaternion 1 0 0 0)).

(** A second parent, number 2. *)
Definition parent2 : Entity R :=
  mkEntity 2 (mkState (Eigen.mkVector3 0 0 0) (Eigen.mkQuaternion 1 0 0 0)).

(** A stand-in for [scrimmage::get] on a parameter map that holds none
    of the keys: it answers with the default it is given. *)
Definition answer_defaults : ParseUtils :=
  {| get_bool := fun _ _ default => String.eqb default "true";
     get_string := fun _ _ default => default |}.

(** A sample with a lidar pose whose converted orientation has
    [w > 1/2]: the quaternion [(0, 1, 0, 0)] goes to
    [(1/sqrt 2, 0, 0, 1/sqrt 2)]. *)
Definition lidar_level : AirSimLidarType.t R :=
  AirSimLidarType.mk (mkLidarData [Examples.f0; Examples.f0; Examples.f0])
    Examples.pose_b Examples.pose_b.
End MoreExamples.

(* ================================================================== *)
(** * The axis convention *)

Section AxisConvention.
Import Eigen.
Local Open Scope R_scope.

Lemma half_xTo : (@half R _ * @ImageCb.xTo R _)%sc = Spec.deg (-180) / 2.
Proof. unfold half, ImageCb.xTo, Spec.deg; simpl. lra. Qed.

Lemma half_zTo : (@half R _ * @ImageCb.zTo R _)%sc = Spec.deg 90 / 2.
Proof. unfold half, ImageCb.zTo, Spec.deg; simpl. lra. Qed.

(** The angle-axis values of the source are the quaternions [Rx] and
    [Rz] of the specification. *)
Lemma quat_of_xTo :
  quat_of_angle_axis (mkAngleAxis (@ImageCb.xTo R _) UnitX) = Spec.Rx (Spec.deg (-180)).
Proof.
  unfold quat_of_angle_axis, Spec.Rx. cbn [angle axis].
  rewrite half_xTo. unfold UnitX; simpl. f_equal; ring.
Qed.

Lemma quat_of_zTo :
  quat_of_angle_axis (mkAngleAxis (@ImageCb.zTo R _) UnitZ) = Spec.Rz (Spec.deg 90).
Proof.
  unfold quat_of_angle_axis, Spec.Rz. cbn [angle axis].
  rewrite half_zTo. unfold UnitZ; simpl. f_equal; ring.
Qed.

Lemma quat_mul_assoc (a b c : Quaternion R) :
  quat_mul a (quat_mul b c) = quat_mul (quat_mul a b) c.
Proof. destruct a, b, c. unfold quat_mul; simpl. f_equal; ring. Qed.

Lemma position_convention (p : Vector3 R) :
  mkVector3 (v_y p) (v_x p) (of_Z (-1) * v_z p)%sc = Spec.position_ENU p.
Proof. unfold Spec.position_ENU; simpl. f_equal. ring. Qed.

Lemma orientation_convention (q : Quaternion R) :
  angle_axis_mul (mkAngleAxis (@ImageCb.zTo R _) UnitZ)
    (angle_axis_mul (mkAngleAxis (@ImageCb.xTo R _) UnitX) q)
  = Spec.orientation_ENU q.
Proof.
  unfold angle_axis_mul, Spec.orientation_ENU.
  rewrite quat_of_xTo, quat_of_zTo. apply quat_mul_assoc.
Qed.

Lemma Rx_minus_180 : Spec.Rx (Spec.deg (-180)) = mkQuaternion 0 (-1) 0 0.
Proof.
  unfold Spec.Rx.
  replace (Spec.deg (-180) / 2) with (- (PI / 2)) by (unfold Spec.deg; lra).
  rewrite cos_neg, sin_neg, cos_PI2, sin_PI2. reflexivity.
Qed.

Lemma Rz_plus_90 : Spec.Rz (Spec.deg 90) = mkQuaternion (1 / sqrt 2) 0 0 (1 / sqrt 2).
Proof.
  unfold Spec.Rz.
  replace (Spec.deg 90 / 2) with (PI / 4) by (unfold Spec.deg; lra).
  rewrite cos_PI4, sin_PI4. reflexivity.
Qed.

Lemma inv_sqrt2_sqr : (1 / sqrt 2) * (1 / sqrt 2) = 1 / 2.
Proof.
  assert (Hs : sqrt 2 * sqrt 2 = 2) by (apply sqrt_sqrt; lra).
  assert (Hn : sqrt 2 <> 0) by (intros E; rewrite E in Hs; lra).
  apply (Rmult_eq_reg_l (sqrt 2 * sqrt 2)).
  - transitivity 1; [ field; auto | rewrite Hs; lra ].
  - rewrite Hs; lra.
Qed.

(** The converted orientation, coefficient by coefficient. *)
Lemma orientation_ENU_closed_form (q : Quaternion R) :
  Spec.orientation_ENU q =
  mkQuaternion (1 / sqrt 2 * (q_x q + q_y q))
               (- (1 / sqrt 2) * (q_w q + q_z q))
               (1 / sqrt 2 * (q_z q - q_w q))
               (1 / sqrt 2 * (q_x q - q_y q)).
Proof.
  unfold Spec.orientation_ENU. rewrite Rx_minus_180, Rz_plus_90.
  destruct q as [w x y z]. unfold quat_mul; simpl. f_equal; ring.
Qed.

(** The fixed rotation [Rz(+90deg) * Rx(-180deg)] acts on vectors as
    the position rule does: the two halves of the convention agree. *)
Lemma rotation_agrees_with_position (p : Vector3 R) :
  mat_vec (toRotationMatrix (quat_mul (Spec.Rz (Spec.deg 90)) (Spec.Rx (Spec.deg (-180))))) p
  = Spec.position_ENU p.
Proof.
  rewrite Rx_minus_180, Rz_plus_90. destruct p as [x y z].
  unfold Spec.position_ENU, mat_vec, toRotationMatrix, quat_mul; simpl.
  pose proof inv_sqrt2_sqr as Hs. set (s := 1 / sqrt 2) in *.
  clearbody s.
  f_equal; ring_simplify; replace (s ^ 2) with (1 / 2) by (rewrite <- Hs; ring); lra.
Qed.

End AxisConvention.

(** C1.  Every pose received in NED (the vehicle and camera pose of an
    image, in the image callback and in the tick, and the vehicle and
    lidar pose of the lidar sample) is converted to ENU by sending the
    position (x, y, z) to (y, x, -z) and the orientation q to
    Rz(+90deg) * Rx(-180deg) * q, the rotation about X applied first. *)
Theorem C1_ned_to_enu (a : AirSimImageType.t R) (l : AirSimLidarType.t R) :
  (ImageCb.vehicle_position_ENU a, ImageCb.vehicle_orientation_ENU a)
    = Spec.pose_ENU (AirSimImageType.vehicle_pose_world_NED a)
  /\ (ImageCb.camera_position_world_ENU a, ImageCb.camera_orientation_world_ENU a)
    = Spec.pose_ENU (AirSimImageType.camera_pose_world_NED a)
  /\ (StepImages.vehicle_position_ENU a, StepImages.vehicle_orientation_ENU a)
    = Spec.pose_ENU (AirSimImageType.vehicle_pose_world_NED a)
  /\ (StepImages.camera_position_world_ENU a, StepImages.camera_orientation_world_ENU a)
    = Spec.pose_ENU (AirSimImageType.camera_pose_world_NED a)
  /\ (StepLidar.vehicle_position_ENU l, StepLidar.vehicle_orientation_ENU l)
    = Spec.pose_ENU (AirSimLidarType.vehicle_pose_world_NED l)
  /\ (StepLidar.lidar_position_world_ENU l, StepLidar.lidar_orientation_world_ENU l)
    = Spec.pose_ENU (AirSimLidarType.lidar_pose_world_NED l).
Proof.
  unfold Spec.pose_ENU.
  repeat split; f_equal;
    first [ apply position_convention | apply orientation_convention ].
Qed.

(* ================================================================== *)
(** * The camera transform of the callback and of the tick *)

(** C2.  The camera-pose computation of the image callback and the one
    of [step_autonomy] are the same function, and on equal vehicle and
    camera NED poses they give the same translation and rotation (for
    the camera transform and for the world transform built beside it),
    whatever the names and time stamps. *)
Theorem C2_camera_pose_same_function {F : Type} `{Scalar F}
    (a b : AirSimImageType.t F) (ns ns' cam cam' : string) (st st' : Time) :
  AirSimImageType.vehicle_pose_world_NED a = AirSimImageType.vehicle_pose_world_NED b ->
  AirSimImageType.camera_pose_world_NED a = AirSimImageType.camera_pose_world_NED b ->
  @ImageCb.tf_vehicle_camera_ENU F _ = @StepImages.tf_vehicle_camera_ENU F _
  /\ @ImageCb.image_trans_ F _ = @StepImages.image_trans_ F _
  /\ transform (ImageCb.image_trans_ a ns cam st)
     = transform (StepImages.image_trans_ b ns' cam' st')
  /\ transform (ImageCb.world_trans a ns st)
     = transform (StepImages.world_trans b ns' st').
Proof.
  intros Hv Hc. repeat split.
  - unfold ImageCb.image_trans_, StepImages.image_trans_; cbn [transform].
    unfold ImageCb.tf_vehicle_camera_ENU, StepImages.tf_vehicle_camera_ENU,
      ImageCb.tf_world_vehicle_ENU, StepImages.tf_world_vehicle_ENU,
      ImageCb.tf_world_camera_ENU, StepImages.tf_world_camera_ENU,
      ImageCb.vehicle_position_ENU, StepImages.vehicle_position_ENU,
      ImageCb.vehicle_orientation_ENU, StepImages.vehicle_orientation_ENU,
      ImageCb.camera_position_world_ENU, StepImages.camera_position_world_ENU,
      ImageCb.camera_orientation_world_ENU, StepImages.camera_orientation_world_ENU.
    rewrite Hv, Hc. reflexivity.
  - unfold ImageCb.world_trans, StepImages.world_trans; cbn [transform].
    unfold ImageCb.tf_world_vehicle_ENU, StepImages.tf_world_vehicle_ENU,
      ImageCb.vehicle_position_ENU, StepImages.vehicle_position_ENU,
      ImageCb.vehicle_orientation_ENU, StepImages.vehicle_orientation_ENU.
    rewrite Hv. reflexivity.
Qed.

Lemma C2_camera_pose_same_function_witness :
  (AirSimImageType.vehicle_pose_world_NED Examples.img_front
   = AirSimImageType.vehicle_pose_world_NED Examples.img_rear)
  /\ (AirSimImageType.camera_pose_world_NED Examples.img_front
      = AirSimImageType.camera_pose_world_NED Examples.img_rear)
  /\ transform (ImageCb.image_trans_ Examples.img_front "robot1" "front" 5%Z)
     = transform (StepImages.image_trans_ Examples.img_rear "robot1" "rear" 9%Z)
  /\ transform (ImageCb.world_trans Examples.img_front "robot1" 5%Z)
     = transform (StepImages.world_trans Examples.img_rear "robot1" 9%Z).
Proof.
  split; [ reflexivity | split; [ reflexivity | ] ].
  apply (C2_camera_pose_same_function Examples.img_front Examples.img_rear
           "robot1" "robot1" "front" "rear" 5%Z 9%Z); reflexivity.
Defined.

(* ================================================================== *)
(** * Reasoning about routines *)

Section RoutineLemmas.
Context {F : Type} `{Scalar F}.

Lemma events_of_bind {A B} (c : M F A) (k : A -> M F B) (s : St F) :
  events_of (bind c k) s
  = events_of c s ++ events_of (k (result_of c s)) (state_after c s).
Proof. reflexivity. Qed.

Lemma state_after_bind {A B} (c : M F A) (k : A -> M F B) (s : St F) :
  state_after (bind c k) s = state_after (k (result_of c s)) (state_after c s).
Proof. reflexivity. Qed.

Lemma result_of_bind {A B} (c : M F A) (k : A -> M F B) (s : St F) :
  result_of (bind c k) s = result_of (k (result_of c s)) (state_after c s).
Proof. reflexivity. Qed.

Lemma keeps_members_refl (o : ROSAirSim F) : keeps_members o o.
Proof. destruct o; reflexivity. Qed.

Lemma keeps_members_trans (o1 o2 o3 : ROSAirSim F) :
  keeps_members o1 o2 -> keeps_members o2 o3 -> keeps_members o1 o3.
Proof.
  unfold keeps_members. intros H12 H23. rewrite H23 at 1. rewrite H12.
  reflexivity.
Qed.

Lemma keeps_members_set (w : TransformStamped F) (o : ROSAirSim F) :
  keeps_members o (set_world_trans_ w o).
Proof. reflexivity. Qed.

Lemma advance_0 (w : World) : advance 0 w = w.
Proof. destruct w; reflexivity. Qed.

Lemma advance_advance (j k : nat) (w : World) :
  advance j (advance k w) = advance (j + k) w.
Proof. unfold advance; simpl. f_equal. lia. Qed.

(** *** The first loop of the tick *)

Lemma publish_to_match_state pubs topic msg (s : St F) :
  state_after (publish_to_match pubs topic msg) s = s.
Proof.
  induction pubs as [|pub pubs IH]; simpl; [reflexivity|].
  destruct (String.eqb (getTopic pub) topic); [reflexivity | exact IH].
Qed.

Lemma publish_to_match_events pubs topic msg (s : St F) :
  events_of (publish_to_match pubs topic msg) s
  = match first_publisher pubs topic with
    | Some pub => [EvPublishImage pub msg]
    | None => []
    end.
Proof.
  induction pubs as [|pub pubs IH]; simpl; [reflexivity|].
  destruct (String.eqb (getTopic pub) topic); [reflexivity | exact IH].
Qed.

Lemma publish_image_state (a : AirSimImageType.t F) (s : St F) :
  state_after (publish_image a) s = mkSt (self s) (advance 1 (world s)).
Proof.
  unfold publish_image.
  rewrite !state_after_bind. cbn [this result_of state_after fst snd].
  rewrite publish_to_match_state.
  destruct (show_camera_images_ (self s)); reflexivity.
Qed.

Lemma publish_image_events (a : AirSimImageType.t F) (s : St F) :
  events_of (publish_image a) s
  = expected_image_events (self s) (clock (world s)) (now_calls (world s)) [a].
Proof.
  unfold publish_image.
  rewrite !events_of_bind. cbn [this now result_of state_after events_of fst snd app].
  rewrite publish_to_match_events, publish_to_match_state.
  cbn [expected_image_events]. rewrite !app_nil_r.
  fold (image_topic (self s) a). f_equal.
  unfold draw_events. cbn [self]. destruct (show_camera_images_ (self s)); reflexivity.
Qed.

Lemma for_each_publish_image_state images (s : St F) :
  state_after (for_each images publish_image) s
  = mkSt (self s) (advance (List.length images) (world s)).
Proof.
  revert s. induction images as [|a images IH]; intros s; simpl.
  - rewrite advance_0. destruct s; reflexivity.
  - rewrite state_after_bind, IH, publish_image_state. cbn [self world].
    rewrite advance_advance. do 2 f_equal. lia.
Qed.

Lemma for_each_publish_image_events images (s : St F) :
  events_of (for_each images publish_image) s
  = expected_image_events (self s) (clock (world s)) (now_calls (world s)) images.
Proof.
  revert s. induction images as [|a images IH]; intros s; [reflexivity|].
  cbn [for_each]. rewrite events_of_bind, IH, publish_image_state, publish_image_events.
  cbn [expected_image_events self world advance clock now_calls Nat.add].
  rewrite app_nil_r, <- !app_assoc. reflexivity.
Qed.

Lemma image_publishes_expected (o : ROSAirSim F) clk n images :
  image_publishes (expected_image_events o clk n images)
  = expected_image_publishes o clk n images.
Proof.
  revert n. induction images as [|a images IH]; intros n; [reflexivity|].
  cbn [expected_image_events expected_image_publishes]. unfold image_publishes in *.
  rewrite !flat_map_app, IH. f_equal.
  - destruct (first_publisher _ _); reflexivity.
  - unfold draw_events. destruct (show_camera_images_ o); reflexivity.
Qed.

(** *** The second loop of the tick and the lidar branch *)

Lemma evolves_refl (s : St F) : evolves s s.
Proof.
  split; [apply keeps_members_refl | exists 0%nat; symmetry; apply advance_0].
Qed.

Lemma evolves_trans (s1 s2 s3 : St F) :
  evolves s1 s2 -> evolves s2 s3 -> evolves s1 s3.
Proof.
  intros [K12 [j Hj]] [K23 [k Hk]]. split.
  - eapply keeps_members_trans; eassumption.
  - exists (k + j)%nat. rewrite Hk, Hj. apply advance_advance.
Qed.

Lemma camera_transform_events cam images (s : St F) :
  events_of (camera_transform cam images) s = [].
Proof.
  induction images as [|a images IH]; [reflexivity|]. cbn [camera_transform].
  destruct (String.eqb _ cam); [|exact IH].
  rewrite !events_of_bind. cbn [this now result_of state_after events_of fst snd app self].
  destruct (pub_lidar_data_ (self s)); reflexivity.
Qed.

Lemma camera_transform_evolves cam images (s : St F) :
  evolves s (state_after (camera_transform cam images) s).
Proof.
  induction images as [|a images IH]; [apply evolves_refl|]. cbn [camera_transform].
  destruct (String.eqb _ cam); [|exact IH].
  rewrite !state_after_bind. cbn [this now result_of state_after fst snd self].
  destruct (pub_lidar_data_ (self s)); cbn.
  - split; [apply keeps_members_refl | exists 1%nat; reflexivity].
  - split; [apply keeps_members_set | exists 2%nat; reflexivity].
Qed.

Lemma camera_transforms_events names images (s : St F) :
  events_of (camera_transforms names images) s = [].
Proof.
  revert s. induction names as [|cam names IH]; intros s; [reflexivity|].
  cbn [camera_transforms]. rewrite !events_of_bind, camera_transform_events, IH.
  reflexivity.
Qed.

Lemma camera_transforms_evolves names images (s : St F) :
  evolves s (state_after (camera_transforms names images) s).
Proof.
  revert s. induction names as [|cam names IH]; intros s; [apply evolves_refl|].
  cbn [camera_transforms]. rewrite !state_after_bind.
  eapply evolves_trans; [apply camera_transform_evolves|].
  eapply evolves_trans; [apply IH|]. apply evolves_refl.
Qed.

Lemma update_images_events (s : St F) :
  events_of update_images s
  = expected_image_events (self s) (clock (world s)) (now_calls (world s))
      (image_data_ (self s)).
Proof.
  unfold update_images. rewrite !events_of_bind.
  cbn [this result_of state_after events_of fst snd app].
  rewrite for_each_publish_image_events, camera_transforms_events.
  apply app_nil_r.
Qed.

Lemma update_images_evolves (s : St F) : evolves s (state_after update_images s).
Proof.
  unfold update_images. rewrite !state_after_bind.
  cbn [this result_of state_after fst snd].
  eapply evolves_trans; [|apply camera_transforms_evolves].
  rewrite for_each_publish_image_state. split; cbn [self world].
  - apply keeps_members_refl.
  - eexists; reflexivity.
Qed.

Lemma publish_lidar_evolves (s : St F) : evolves s (state_after publish_lidar s).
Proof.
  split; cbn; [apply keeps_members_set | exists 3%nat; reflexivity].
Qed.

End RoutineLemmas.

(* ================================================================== *)
(** * The tick as a whole *)

Section Tick.
Context {F : Type} `{Scalar F}.

Lemma step_autonomy_events (t dt : F) (s : St F) :
  let s1 := state_after (image_branch (self s)) s in
  events_of (step_autonomy t dt) s
  = EvSpinOnce :: EvLock :: EvReadFlag (img_topic_published_ (self s)) :: EvUnlock
      :: events_of (image_branch (self s)) s
      ++ events_of (lidar_branch (self s1)) s1
      ++ [EvSendTransform (result_of (image_branch (self s)) s
                           ++ result_of (lidar_branch (self s1)) s1)].
Proof. reflexivity. Qed.

Lemma step_autonomy_state (t dt : F) (s : St F) :
  let s1 := state_after (image_branch (self s)) s in
  state_after (step_autonomy t dt) s = state_after (lidar_branch (self s1)) s1.
Proof. reflexivity. Qed.

Lemma image_branch_evolves (s : St F) :
  evolves s (state_after (image_branch (self s)) s).
Proof.
  unfold image_branch.
  destruct (pub_image_data_ (self s) && img_topic_published_ (self s)).
  - apply update_images_evolves.
  - apply evolves_refl.
Qed.

Lemma lidar_branch_evolves (s : St F) :
  evolves s (state_after (lidar_branch (self s)) s).
Proof.
  unfold lidar_branch. destruct (pub_lidar_data_ (self s)).
  - apply publish_lidar_evolves.
  - apply evolves_refl.
Qed.

Lemma step_autonomy_evolves (t dt : F) (s : St F) :
  evolves s (state_after (step_autonomy t dt) s).
Proof.
  rewrite step_autonomy_state. cbv zeta.
  eapply evolves_trans; [apply image_branch_evolves | apply lidar_branch_evolves].
Qed.

End Tick.

(** C10.  Whatever the state of the plugin and the arguments [t] and
    [dt], [step_autonomy] returns [true]. *)
Theorem C10_step_autonomy_returns_true {F : Type} `{Scalar F} (s : St F) (t dt : F) :
  result_of (step_autonomy t dt) s = true.
Proof. reflexivity. Qed.

(** C9.  With image publishing and lidar publishing both disabled, a
    tick publishes no image and no cloud, broadcasts one empty list of
    transforms, and leaves the plugin (and the clock) as it found them. *)
Theorem C9_disabled_tick_is_inert {F : Type} `{Scalar F} (s : St F) (t dt : F) :
  pub_image_data_ (self s) = false ->
  pub_lidar_data_ (self s) = false ->
  let es := events_of (step_autonomy t dt) s in
  image_publishes es = []
  /\ cloud_publishes es = []
  /\ broadcasts es = [[]]
  /\ es = [EvSpinOnce; EvLock; EvReadFlag (img_topic_published_ (self s)); EvUnlock;
           EvSendTransform []]
  /\ state_after (step_autonomy t dt) s = s.
Proof.
  intros Hi Hl es.
  assert (Hes : es = [EvSpinOnce; EvLock; EvReadFlag (img_topic_published_ (self s));
                      EvUnlock; EvSendTransform []]).
  { subst es. rewrite step_autonomy_events. cbv zeta. unfold image_branch.
    rewrite Hi. cbn [andb state_after ret fst snd]. unfold lidar_branch.
    rewrite Hl. reflexivity. }
  assert (Hst : state_after (step_autonomy t dt) s = s).
  { rewrite step_autonomy_state. cbv zeta. unfold image_branch.
    rewrite Hi. cbn [andb state_after ret fst snd]. unfold lidar_branch.
    rewrite Hl. reflexivity. }
  rewrite Hes. repeat split; try reflexivity. exact Hst.
Qed.

Lemma C9_disabled_tick_is_inert_witness :
  pub_image_data_ Examples.plugin_off = false
  /\ pub_lidar_data_ Examples.plugin_off = false
  /\ state_after (step_autonomy 0%R 1%R) (mkSt Examples.plugin_off Examples.world0)
     = mkSt Examples.plugin_off Examples.world0.
Proof.
  split; [reflexivity | split; [reflexivity|]].
  apply (C9_disabled_tick_is_inert (mkSt Examples.plugin_off Examples.world0) 0%R 1%R);
    reflexivity.
Defined.

(* ================================================================== *)
(** * Initialization *)

(** C5.  [init] broadcasts the world transform exactly once: the only
    transform sent has frame "world", child frame
    "<ros_namespace>/base_link", the position of the parent's truth
    state as translation and its quaternion as rotation; the same
    transform is kept in [world_trans_]. *)
Theorem C5_init_broadcasts_world_transform {F : Type} `{Scalar F} `{ParseUtils}
    (params : Params) (parent_ : Entity F) (s : St F) :
  let es := events_of (init params parent_) s in
  let o' := self (state_after (init params parent_) s) in
  let state := state_truth parent_ in
  let w :=
    mkTransformStamped
      (mkHeader (clock (world s) (now_calls (world s))) "world")
      (ros_namespace_ o' ++ "/base_link")
      (mkTransform (Eigen.v_x (pos state)) (Eigen.v_y (pos state)) (Eigen.v_z (pos state))
                   (Eigen.q_x (quat state)) (Eigen.q_y (quat state))
                   (Eigen.q_z (quat state)) (Eigen.q_w (quat state))) in
  ros_namespace_ o'
    = (get_string "ros_namespace_prefix" params "robot" ++ to_string (id parent_))%string
  /\ broadcasts es = [[w]]
  /\ world_trans_ o' = w.
Proof.
  unfold init, when, ros_init, events_of, state_after, broadcasts. cbv zeta.
  destruct (get_bool "show_camera_images" params "false"),
           (get_bool "pub_image_data" params "true"),
           (get_bool "pub_lidar_data" params "true");
    cbn -[String.append to_string];
    destruct (ros_isInitialized (world s));
    cbn -[String.append to_string]; repeat split; reflexivity.
Qed.

(* ================================================================== *)
(** * Empty and short samples *)

Section Callbacks.
Context {F : Type} `{Scalar F}.

(** A cloud of fewer than three floats is dropped: nothing is stored,
    nothing is emitted. *)
Lemma airsim_lidar_cb_short (msg_data : AirSimLidarType.t F) (s : St F) :
  (List.length (point_cloud (AirSimLidarType.lidar_data msg_data)) < 3)%nat ->
  airsim_lidar_cb msg_data s = ((tt, s), []).
Proof.
  intros Hlen. unfold airsim_lidar_cb.
  destruct (Nat.ltb_spec (List.length (point_cloud (AirSimLidarType.lidar_data msg_data))) 3);
    [reflexivity | lia].
Qed.

Lemma airsim_lidar_cb_stores (msg_data : AirSimLidarType.t F) (s : St F) :
  (3 <= List.length (point_cloud (AirSimLidarType.lidar_data msg_data)))%nat ->
  airsim_lidar_cb msg_data s = ((tt, mkSt (set_lidar_data_ msg_data (self s)) (world s)), []).
Proof.
  intros Hlen. unfold airsim_lidar_cb.
  destruct (Nat.ltb_spec (List.length (point_cloud (AirSimLidarType.lidar_data msg_data))) 3);
    [lia | reflexivity].
Qed.

(** An empty image message emits nothing, but it is stored before its
    size is looked at. *)
Lemma airsim_image_cb_empty (s : St F) :
  airsim_image_cb [] s = ((tt, mkSt (set_image_data_ [] (self s)) (world s)), []).
Proof. reflexivity. Qed.

End Callbacks.

(** C3.  The image callback at an empty message, with one image in the
    buffer: no event is emitted and nothing is published, but the
    buffered image is gone, where the lidar callback keeps its buffer
    on a short cloud. *)
Theorem C3_empty_image_message_overwrites_buffer :
  let s := mkSt Examples.plugin_buffered Examples.world0 in
  let s' := state_after (airsim_image_cb []) s in
  self (state_after (airsim_image_cb [Examples.img_front]) Examples.st0)
    = Examples.plugin_buffered
  /\ image_data_ (self s) = [Examples.img_front]
  /\ events_of (airsim_image_cb []) s = []
  /\ image_data_ (self s') = []
  /\ self s' <> self s
  /\ state_after (airsim_lidar_cb (Examples.lidar_of [Examples.f0; Examples.f0])) s = s.
Proof.
  cbv zeta. repeat split; try reflexivity.
  intros E. apply (f_equal (@image_data_ R)) in E. discriminate E.
Qed.

(* ================================================================== *)
(** * The lock around the flag *)

Section LockDiscipline.
Context {F : Type} `{Scalar F}.

Lemma guarded_sound (es : list (Event F)) (held : bool) :
  guarded held es = true ->
  forall pre e post,
    es = pre ++ e :: post -> touches_flag e = true -> held_after held pre = true.
Proof.
  revert held. induction es as [|e0 es IH]; intros held Hg pre e post Hes He.
  - destruct pre; discriminate Hes.
  - destruct pre as [|p pre]; cbn [app] in Hes; injection Hes as -> ->.
    + destruct e; try discriminate He; cbn in Hg |- *;
        apply andb_true_iff in Hg; tauto.
    + destruct p; cbn in Hg |- *;
        try (apply andb_true_iff in Hg; destruct Hg as [Hh Hg]);
        eapply IH; eauto.
Qed.

Lemma guarded_under_lock (es : list (Event F)) :
  guarded false es = true -> under_lock es.
Proof. intros Hg pre e post. apply guarded_sound. exact Hg. Qed.

Lemma guarded_silent (es rest : list (Event F)) (held : bool) :
  silent es = true -> guarded held (es ++ rest) = guarded held rest.
Proof.
  induction es as [|e es IH]; intros Hs; [reflexivity|].
  cbn in Hs. apply andb_true_iff in Hs. destruct Hs as [He Hs].
  destruct e; try discriminate He; cbn; apply IH; exact Hs.
Qed.

Lemma guarded_app (es rest : list (Event F)) :
  guarded false es = true -> guarded false (es ++ rest) = guarded false rest.
Proof.
  generalize false at 1 2 as held. intros held. revert held.
  induction es as [|e es IH]; intros held Hg.
  - cbn in Hg. destruct held; [discriminate Hg | reflexivity].
  - destruct e, held; cbn in Hg |- *; try discriminate Hg; apply IH; exact Hg.
Qed.

Lemma silent_app (es es' : list (Event F)) :
  silent (es ++ es') = silent es && silent es'.
Proof. apply forallb_app. Qed.

Lemma expected_image_events_silent (o : ROSAirSim F) clk n images :
  silent (expected_image_events o clk n images) = true.
Proof.
  revert n. induction images as [|a images IH]; intros n; [reflexivity|].
  cbn [expected_image_events]. rewrite !silent_app, IH.
  unfold draw_events.
  destruct (first_publisher _ _), (show_camera_images_ o); reflexivity.
Qed.

Lemma create_topic_silent (a : AirSimImageType.t F) (s : St F) :
  silent (events_of (create_topic a) s) = true.
Proof.
  unfold create_topic, events_of. cbn -[String.append to_lower_copy existsb last].
  destruct (existsb _ _); cbn -[String.append to_lower_copy last]; [reflexivity|].
  destruct (pub_lidar_data_ (self s)); reflexivity.
Qed.

Lemma for_each_create_topic_silent images (s : St F) :
  silent (events_of (for_each images create_topic) s) = true.
Proof.
  revert s. induction images as [|a images IH]; intros s; [reflexivity|].
  cbn [for_each]. rewrite events_of_bind, silent_app, create_topic_silent, IH.
  reflexivity.
Qed.

(** The events of the image callback, message by message. *)
Lemma airsim_image_cb_events (data : list (AirSimImageType.t F)) (s : St F) :
  events_of (airsim_image_cb data) s
  = match data with
    | [] => []
    | _ :: _ =>
        EvLock :: EvReadFlag (img_topic_published_ (self s)) :: EvUnlock
          :: (if img_topic_published_ (self s) then []
              else events_of (for_each data create_topic)
                     (mkSt (set_image_data_ data (self s)) (world s))
                   ++ [EvLock; EvWriteFlag true; EvUnlock])
    end.
Proof.
  destruct data as [|a data]; [reflexivity|].
  unfold airsim_image_cb, events_of. cbn -[for_each create_topic].
  destruct (img_topic_published_ (self s)); cbn -[for_each create_topic];
    reflexivity.
Qed.

Lemma airsim_image_cb_guarded (data : list (AirSimImageType.t F)) (s : St F) :
  guarded false (events_of (airsim_image_cb data) s) = true.
Proof.
  rewrite airsim_image_cb_events. destruct data as [|a data]; [reflexivity|].
  cbn [guarded negb andb].
  destruct (img_topic_published_ (self s)); [reflexivity|].
  rewrite guarded_silent by apply for_each_create_topic_silent. reflexivity.
Qed.

Lemma image_branch_silent (o : ROSAirSim F) (s : St F) :
  silent (events_of (image_branch o) s) = true.
Proof.
  unfold image_branch. destruct (pub_image_data_ o && img_topic_published_ o).
  - rewrite update_images_events. apply expected_image_events_silent.
  - reflexivity.
Qed.

Lemma lidar_branch_silent (o : ROSAirSim F) (s : St F) :
  silent (events_of (lidar_branch o) s) = true.
Proof. unfold lidar_branch. destruct (pub_lidar_data_ o); reflexivity. Qed.

Lemma step_autonomy_guarded (t dt : F) (s : St F) :
  guarded false (events_of (step_autonomy t dt) s) = true.
Proof.
  rewrite step_autonomy_events. cbv zeta. cbn [guarded negb andb].
  rewrite guarded_silent by apply image_branch_silent.
  rewrite guarded_silent by apply lidar_branch_silent.
  reflexivity.
Qed.

Lemma exec_guarded (a : Action F) (s : St F) :
  guarded false (events_of (exec a) s) = true.
Proof.
  destruct a as [data|data|t dt]; cbn [exec].
  - apply airsim_image_cb_guarded.
  - unfold airsim_lidar_cb. destruct (_ <? _)%nat; reflexivity.
  - rewrite events_of_bind. cbn [ret events_of snd]. rewrite app_nil_r.
    apply step_autonomy_guarded.
Qed.

Lemma run_guarded (acts : list (Action F)) (s : St F) :
  guarded false (events_of (run acts) s) = true.
Proof.
  revert s. induction acts as [|a acts IH]; intros s; [reflexivity|].
  cbn [run]. rewrite events_of_bind, guarded_app by apply exec_guarded. apply IH.
Qed.

End LockDiscipline.

(** C7.  In the image callback and in the tick, and so in every run of
    the plugin, each read and each write of [img_topic_published_]
    happens between a [lock] and the matching [unlock] of
    [img_topic_published_mutex_]; the mutex is never locked twice nor
    left locked. *)
Theorem C7_flag_accessed_under_lock {F : Type} `{Scalar F} (s : St F) :
  (forall data,
      guarded false (events_of (airsim_image_cb data) s) = true
      /\ under_lock (events_of (airsim_image_cb data) s))
  /\ (forall t dt,
      guarded false (events_of (step_autonomy t dt) s) = true
      /\ under_lock (events_of (step_autonomy t dt) s))
  /\ (forall acts,
      guarded false (events_of (run acts) s) = true
      /\ under_lock (events_of (run acts) s)).
Proof.
  repeat split.
  - apply airsim_image_cb_guarded.
  - apply guarded_under_lock, airsim_image_cb_guarded.
  - apply step_autonomy_guarded.
  - apply guarded_under_lock, step_autonomy_guarded.
  - apply run_guarded.
  - apply guarded_under_lock, run_guarded.
Qed.

(* ================================================================== *)
(** * Publisher bookkeeping *)

Section PublishOnce.
Context {F : Type} `{Scalar F}.

Lemma advertised_app (es es' : list (Event F)) :
  advertised (es ++ es') = advertised es ++ advertised es'.
Proof. apply flat_map_app. Qed.

Lemma advertised_expected_image_events (o : ROSAirSim F) clk n images :
  advertised (expected_image_events o clk n images) = [].
Proof.
  revert n. induction images as [|a images IH]; intros n; [reflexivity|].
  cbn [expected_image_events]. rewrite !advertised_app, IH. unfold draw_events.
  destruct (first_publisher _ _), (show_camera_images_ o); reflexivity.
Qed.

Lemma step_autonomy_advertises_nothing (t dt : F) (s : St F) :
  advertised (events_of (step_autonomy t dt) s) = [].
Proof.
  rewrite step_autonomy_events. cbv zeta.
  change (advertised (?a :: ?b :: ?c :: ?d :: ?l)) with (advertised l).
  rewrite !advertised_app. unfold image_branch, lidar_branch.
  destruct (pub_image_data_ (self s) && img_topic_published_ (self s)).
  - rewrite update_images_events, advertised_expected_image_events.
    destruct (pub_lidar_data_ _); reflexivity.
  - destruct (pub_lidar_data_ _); reflexivity.
Qed.

(** A tick changes no member but [world_trans_]. *)
Lemma step_autonomy_keeps (t dt : F) (s : St F) :
  let o' := self (state_after (step_autonomy t dt) s) in
  img_topic_published_ o' = img_topic_published_ (self s)
  /\ img_publishers_ o' = img_publishers_ (self s)
  /\ camera_names_ o' = camera_names_ (self s)
  /\ image_data_ o' = image_data_ (self s)
  /\ lidar_data_ o' = lidar_data_ (self s).
Proof.
  destruct (step_autonomy_evolves t dt s) as [K _]. cbv zeta.
  rewrite K. repeat split; reflexivity.
Qed.

(** What one round of the topic-creating loop does to the bookkeeping. *)
Lemma create_topic_bookkeeping (a : AirSimImageType.t F) (s : St F) :
  let o' := self (state_after (create_topic a) s) in
  ros_namespace_ o' = ros_namespace_ (self s)
  /\ img_topic_published_ o' = img_topic_published_ (self s)
  /\ img_publishers_ o'
     = img_publishers_ (self s) ++ [mkPublisher (image_topic (self s) a)]
  /\ advertised (events_of (create_topic a) s) = [image_topic (self s) a].
Proof.
  unfold create_topic, events_of, state_after, image_topic.
  cbn -[String.append to_lower_copy existsb last].
  destruct (existsb _ _); cbn -[String.append to_lower_copy last];
    [repeat split; reflexivity|].
  destruct (pub_lidar_data_ (self s)); repeat split; reflexivity.
Qed.

Lemma for_each_create_topic_bookkeeping images (s : St F) :
  let o' := self (state_after (for_each images create_topic) s) in
  ros_namespace_ o' = ros_namespace_ (self s)
  /\ img_topic_published_ o' = img_topic_published_ (self s)
  /\ img_publishers_ o'
     = img_publishers_ (self s)
       ++ map (fun a => mkPublisher (image_topic (self s) a)) images
  /\ advertised (events_of (for_each images create_topic) s)
     = map (image_topic (self s)) images.
Proof.
  revert s. induction images as [|a images IH]; intros s.
  - cbn. rewrite app_nil_r. repeat split; reflexivity.
  - cbn [for_each]. rewrite state_after_bind, events_of_bind. cbv zeta.
    destruct (create_topic_bookkeeping a s) as (Hns & Hf & Hp & Ha).
    destruct (IH (state_after (create_topic a) s)) as (Hns' & Hf' & Hp' & Ha').
    cbv zeta in *. rewrite Hns', Hf', Hp', advertised_app, Ha, Ha', Hns, Hf, Hp.
    unfold image_topic in *. rewrite Hns. cbn [map app].
    rewrite <- app_assoc. repeat split; reflexivity.
Qed.

(** The image callback once the flag is set, or at an empty message:
    the message is buffered and nothing else changes. *)
Lemma airsim_image_cb_later (data : list (AirSimImageType.t F)) (s : St F) :
  img_topic_published_ (self s) = true \/ data = [] ->
  state_after (airsim_image_cb data) s = mkSt (set_image_data_ data (self s)) (world s)
  /\ advertised (events_of (airsim_image_cb data) s) = [].
Proof.
  intros Hc. rewrite airsim_image_cb_events.
  destruct data as [|a data]; [split; reflexivity|].
  destruct Hc as [Hf|Hd]; [|discriminate Hd].
  unfold airsim_image_cb, state_after. cbn -[for_each create_topic].
  rewrite Hf. split; reflexivity.
Qed.

(** The image callback at the first non-empty message. *)
Lemma airsim_image_cb_first (data : list (AirSimImageType.t F)) (s : St F) :
  img_topic_published_ (self s) = false -> data <> [] ->
  let o' := self (state_after (airsim_image_cb data) s) in
  img_topic_published_ o' = true
  /\ img_publishers_ o'
     = img_publishers_ (self s)
       ++ map (fun a => mkPublisher (image_topic (self s) a)) data
  /\ advertised (events_of (airsim_image_cb data) s) = map (image_topic (self s)) data.
Proof.
  intros Hf Hd. rewrite airsim_image_cb_events.
  destruct data as [|a data]; [contradiction|]. clear Hd.
  pose proof (for_each_create_topic_bookkeeping (a :: data)
                (mkSt (set_image_data_ (a :: data) (self s)) (world s)))
    as (_ & _ & Hp & Ha).
  cbv zeta in *. rewrite Hf.
  change (advertised (?x :: ?y :: ?z :: ?l)) with (advertised l).
  rewrite advertised_app, Ha, app_nil_r.
  unfold airsim_image_cb, state_after in *. cbn -[for_each create_topic] in *.
  rewrite Hf. cbn -[for_each create_topic]. rewrite Hp.
  repeat split; reflexivity.
Qed.

Lemma exec_published (a : Action F) (s : St F) :
  img_topic_published_ (self s) = true ->
  let o' := self (state_after (exec a) s) in
  img_topic_published_ o' = true
  /\ img_publishers_ o' = img_publishers_ (self s)
  /\ camera_names_ o' = camera_names_ (self s)
  /\ advertised (events_of (exec a) s) = [].
Proof.
  intros Hf. destruct a as [data|data|t dt]; cbn [exec]; cbv zeta.
  - destruct (airsim_image_cb_later (data := data) s (or_introl Hf)) as [-> ->].
    cbn. auto.
  - unfold airsim_lidar_cb. destruct (_ <? _)%nat; cbn; auto.
  - rewrite state_after_bind, events_of_bind. cbn [ret state_after events_of fst snd].
    rewrite app_nil_r, step_autonomy_advertises_nothing.
    destruct (step_autonomy_keeps t dt s) as (-> & -> & -> & _). auto.
Qed.

Lemma exec_not_first (a : Action F) (s : St F) :
  img_topic_published_ (self s) = false -> nonempty_image_msg a = false ->
  let o' := self (state_after (exec a) s) in
  img_topic_published_ o' = false
  /\ img_publishers_ o' = img_publishers_ (self s)
  /\ camera_names_ o' = camera_names_ (self s)
  /\ advertised (events_of (exec a) s) = [].
Proof.
  intros Hf Hn. destruct a as [data|data|t dt]; cbn [exec]; cbv zeta.
  - destruct data; [|discriminate Hn].
    destruct (airsim_image_cb_later (data := []) s (or_intror eq_refl)) as [-> ->].
    cbn. auto.
  - unfold airsim_lidar_cb. destruct (_ <? _)%nat; cbn; auto.
  - rewrite state_after_bind, events_of_bind. cbn [ret state_after events_of fst snd].
    rewrite app_nil_r, step_autonomy_advertises_nothing.
    destruct (step_autonomy_keeps t dt s) as (-> & -> & -> & _). auto.
Qed.

Lemma exec_first (a : Action F) (s : St F) :
  img_topic_published_ (self s) = false -> nonempty_image_msg a = true ->
  img_topic_published_ (self (state_after (exec a) s)) = true.
Proof.
  intros Hf Hn. destruct a as [data|data|t dt]; try discriminate Hn.
  destruct data as [|a data]; [discriminate Hn|].
  apply (airsim_image_cb_first (data := a :: data)); [exact Hf | discriminate].
Qed.

(** *** Along a run *)

Lemma flags_of_cons (a : Action F) acts (s : St F) :
  flags_of (a :: acts) s
  = img_topic_published_ (self s) :: flags_of acts (state_after (exec a) s).
Proof. reflexivity. Qed.

Lemma flags_of_head acts (s : St F) :
  exists tl, flags_of acts s = img_topic_published_ (self s) :: tl.
Proof. destruct acts; eexists; reflexivity. Qed.

Lemma flag_changes_cons (from to b : bool) acts (s : St F) :
  flag_changes from to (b :: flags_of acts s)
  = ((if Bool.eqb b from && Bool.eqb (img_topic_published_ (self s)) to then 1 else 0)
     + flag_changes from to (flags_of acts s))%nat.
Proof. destruct (flags_of_head acts s) as [tl ->]. reflexivity. Qed.

Lemma published_for_good acts (s : St F) (from to : bool) :
  img_topic_published_ (self s) = true ->
  (from && to = false) ->
  flag_changes from to (flags_of acts s) = 0%nat.
Proof.
  revert s. induction acts as [|a acts IH]; intros s Hf Hft; [reflexivity|].
  rewrite flags_of_cons, flag_changes_cons.
  destruct (exec_published a s Hf) as (Hf' & _). cbv zeta in Hf'.
  rewrite (IH _ Hf' Hft), Hf, Hf'.
  destruct from, to; try discriminate Hft; reflexivity.
Qed.

Lemma never_reset acts (s : St F) :
  flag_changes true false (flags_of acts s) = 0%nat.
Proof.
  revert s. induction acts as [|a acts IH]; intros s; [reflexivity|].
  rewrite flags_of_cons, flag_changes_cons, IH.
  destruct (img_topic_published_ (self s)) eqn:Hf; [|reflexivity].
  destruct (exec_published a s Hf) as (-> & _). reflexivity.
Qed.

Lemma set_once acts (s : St F) :
  flag_changes false true (flags_of acts s)
  = if negb (img_topic_published_ (self s)) && existsb nonempty_image_msg acts
    then 1%nat else 0%nat.
Proof.
  revert s. induction acts as [|a acts IH]; intros s.
  - cbn. rewrite andb_false_r. reflexivity.
  - destruct (img_topic_published_ (self s)) eqn:Hf.
    + rewrite (published_for_good _ _ false true Hf eq_refl). reflexivity.
    + rewrite flags_of_cons, flag_changes_cons, Hf. cbn [negb andb existsb Bool.eqb].
      destruct (nonempty_image_msg a) eqn:Hn.
      * pose proof (exec_first a s Hf Hn) as Hf'. rewrite Hf'.
        rewrite (published_for_good _ _ false true Hf' eq_refl). reflexivity.
      * destruct (exec_not_first a s Hf Hn) as (Hf' & _). cbv zeta in Hf'.
        rewrite Hf', IH, Hf'. reflexivity.
Qed.

End PublishOnce.

(** C4.  Publishers and camera names are created only by an image
    message that finds the flag false and is not empty; that message
    sets the flag; once set the flag stays set, and no later message or
    tick advertises a topic or changes the publishers or the camera
    names.  Along any run the flag never goes back to false and goes
    from false to true once (if it starts false and a non-empty image
    message arrives) or not at all. *)
Theorem C4_publish_once {F : Type} `{Scalar F} :
  (forall (a : Action F) (s : St F),
      let o' := self (state_after (exec a) s) in
      let created := advertised (events_of (exec a) s) in
      (img_topic_published_ (self s) = true ->
         img_topic_published_ o' = true
         /\ img_publishers_ o' = img_publishers_ (self s)
         /\ camera_names_ o' = camera_names_ (self s)
         /\ created = [])
      /\ (img_topic_published_ (self s) = false -> nonempty_image_msg a = false ->
         img_topic_published_ o' = false
         /\ img_publishers_ o' = img_publishers_ (self s)
         /\ camera_names_ o' = camera_names_ (self s)
         /\ created = [])
      /\ (img_topic_published_ (self s) = false -> nonempty_image_msg a = true ->
         img_topic_published_ o' = true))
  /\ (forall (acts : list (Action F)) (s : St F),
      flag_changes true false (flags_of acts s) = 0%nat
      /\ flag_changes false true (flags_of acts s)
         = if negb (img_topic_published_ (self s)) && existsb nonempty_image_msg acts
           then 1%nat else 0%nat).
Proof.
  split.
  - intros a s. cbv zeta. split; [|split].
    + apply exec_published.
    + apply exec_not_first.
    + apply exec_first.
  - intros acts s. split; [apply never_reset | apply set_once].
Qed.

(* ================================================================== *)
(** * What a tick publishes *)

Section Republish.
Context {F : Type} `{Scalar F}.

Lemma image_publishes_app (es es' : list (Event F)) :
  image_publishes (es ++ es') = image_publishes es ++ image_publishes es'.
Proof. apply flat_map_app. Qed.

Lemma cloud_publishes_app (es es' : list (Event F)) :
  cloud_publishes (es ++ es') = cloud_publishes es ++ cloud_publishes es'.
Proof. apply flat_map_app. Qed.

Lemma broadcasts_app (es es' : list (Event F)) :
  broadcasts (es ++ es') = broadcasts es ++ broadcasts es'.
Proof. apply flat_map_app. Qed.

Lemma lidar_branch_image_publishes (o : ROSAirSim F) (s : St F) :
  image_publishes (events_of (lidar_branch o) s) = [].
Proof. unfold lidar_branch. destruct (pub_lidar_data_ o); reflexivity. Qed.

Lemma cloud_publishes_expected_image_events (o : ROSAirSim F) clk n images :
  cloud_publishes (expected_image_events o clk n images) = [].
Proof.
  revert n. induction images as [|a images IH]; intros n; [reflexivity|].
  cbn [expected_image_events]. unfold cloud_publishes in *.
  rewrite !flat_map_app, IH. unfold draw_events.
  destruct (first_publisher _ _), (show_camera_images_ o); reflexivity.
Qed.

Lemma broadcasts_expected_image_events (o : ROSAirSim F) clk n images :
  broadcasts (expected_image_events o clk n images) = [].
Proof.
  revert n. induction images as [|a images IH]; intros n; [reflexivity|].
  cbn [expected_image_events]. unfold broadcasts in *.
  rewrite !flat_map_app, IH. unfold draw_events.
  destruct (first_publisher _ _), (show_camera_images_ o); reflexivity.
Qed.

Lemma image_branch_events (s : St F) :
  events_of (image_branch (self s)) s
  = if pub_image_data_ (self s) && img_topic_published_ (self s)
    then expected_image_events (self s) (clock (world s)) (now_calls (world s))
           (image_data_ (self s))
    else [].
Proof.
  unfold image_branch.
  destruct (pub_image_data_ (self s) && img_topic_published_ (self s));
    [apply update_images_events | reflexivity].
Qed.

Lemma image_branch_cloud_publishes (s : St F) :
  cloud_publishes (events_of (image_branch (self s)) s) = [].
Proof.
  rewrite image_branch_events.
  destruct (_ && _); [apply cloud_publishes_expected_image_events | reflexivity].
Qed.

Lemma image_branch_broadcasts (s : St F) :
  broadcasts (events_of (image_branch (self s)) s) = [].
Proof.
  rewrite image_branch_events.
  destruct (_ && _); [apply broadcasts_expected_image_events | reflexivity].
Qed.

(** The images a tick publishes: one message for each buffered image
    whose topic has a publisher, sent to the first such publisher. *)
Lemma step_autonomy_image_publishes (t dt : F) (s : St F) :
  image_publishes (events_of (step_autonomy t dt) s)
  = if pub_image_data_ (self s) && img_topic_published_ (self s)
    then expected_image_publishes (self s) (clock (world s)) (now_calls (world s))
           (image_data_ (self s))
    else [].
Proof.
  rewrite step_autonomy_events. cbv zeta.
  change (image_publishes (?a :: ?b :: ?c :: ?d :: ?l)) with (image_publishes l).
  rewrite !image_publishes_app, lidar_branch_image_publishes, image_branch_events.
  cbn [image_publishes flat_map app]. rewrite app_nil_r.
  destruct (pub_image_data_ (self s) && img_topic_published_ (self s));
    [apply image_publishes_expected | reflexivity].
Qed.

(** The lidar branch, run in a state [s1]. *)
Lemma publish_lidar_spec (s1 : St F) :
  let o := self s1 in
  let clk := clock (world s1) in
  let n := now_calls (world s1) in
  events_of publish_lidar s1
  = [EvPublishCloud (base_scan_pub_ o)
       (lidar_msg (ros_namespace_ o ++ "/base_laser") (clk n)
          (point_cloud (AirSimLidarType.lidar_data (lidar_data_ o))))]
  /\ result_of publish_lidar s1
     = [StepLidar.laser_trans_ (lidar_data_ o) (ros_namespace_ o) (clk (S n));
        StepLidar.world_trans (lidar_data_ o) (ros_namespace_ o) (clk (S (S n)))]
  /\ world_trans_ (self (state_after publish_lidar s1))
     = StepLidar.world_trans (lidar_data_ o) (ros_namespace_ o) (clk (S (S n))).
Proof. repeat split; reflexivity. Qed.

(** The cloud and the transforms a tick sends. *)
Lemma step_autonomy_lidar (t dt : F) (s : St F) :
  let o := self s in
  let es := events_of (step_autonomy t dt) s in
  let s' := state_after (step_autonomy t dt) s in
  if pub_lidar_data_ o then
    exists st_cloud st_laser st_world tf_images,
      cloud_publishes es
      = [(base_scan_pub_ o,
          lidar_msg (ros_namespace_ o ++ "/base_laser") st_cloud
            (point_cloud (AirSimLidarType.lidar_data (lidar_data_ o))))]
      /\ broadcasts es
         = [tf_images
            ++ [StepLidar.laser_trans_ (lidar_data_ o) (ros_namespace_ o) st_laser;
                StepLidar.world_trans (lidar_data_ o) (ros_namespace_ o) st_world]]
      /\ world_trans_ (self s')
         = StepLidar.world_trans (lidar_data_ o) (ros_namespace_ o) st_world
  else
    cloud_publishes es = [] /\ exists tf_images, broadcasts es = [tf_images].
Proof.
  cbv zeta. rewrite step_autonomy_events, step_autonomy_state. cbv zeta.
  destruct (image_branch_evolves s) as [K _].
  set (s1 := state_after (image_branch (self s)) s) in *.
  change (cloud_publishes (?a :: ?b :: ?c :: ?d :: ?l)) with (cloud_publishes l).
  change (broadcasts (?a :: ?b :: ?c :: ?d :: ?l)) with (broadcasts l).
  rewrite !cloud_publishes_app, !broadcasts_app.
  rewrite image_branch_cloud_publishes, image_branch_broadcasts.
  cbn [app].
  assert (Hl : pub_lidar_data_ (self s1) = pub_lidar_data_ (self s)) by (rewrite K; reflexivity).
  assert (Hd : lidar_data_ (self s1) = lidar_data_ (self s)) by (rewrite K; reflexivity).
  assert (Hn : ros_namespace_ (self s1) = ros_namespace_ (self s)) by (rewrite K; reflexivity).
  assert (Hb : base_scan_pub_ (self s1) = base_scan_pub_ (self s)) by (rewrite K; reflexivity).
  unfold lidar_branch. rewrite Hl.
  destruct (pub_lidar_data_ (self s)).
  - destruct (publish_lidar_spec s1) as (He & Hr & Hw). cbv zeta in *.
    rewrite He, Hr, Hw, Hd, Hn, Hb.
    do 4 eexists. repeat split; reflexivity.
  - cbn. split; [reflexivity | eexists; reflexivity].
Qed.

Lemma first_publisher_some pubs topic (pub : Publisher) :
  first_publisher pubs topic = Some pub -> In pub pubs /\ getTopic pub = topic.
Proof.
  unfold first_publisher. intros Hf. apply find_some in Hf.
  destruct Hf as [Hin Heq]. split; [exact Hin | apply String.eqb_eq; exact Heq].
Qed.

Lemma first_publisher_none pubs topic :
  first_publisher pubs topic = None ->
  forall pub, In pub pubs -> getTopic pub <> topic.
Proof.
  unfold first_publisher. intros Hf pub Hin Heq.
  pose proof (find_none _ _ Hf pub Hin) as Hn. cbn in Hn.
  apply String.eqb_neq in Hn. contradiction.
Qed.

Lemma expected_image_publishes_complete (o : ROSAirSim F) clk n images a pub :
  In a images ->
  first_publisher (img_publishers_ o) (image_topic o a) = Some pub ->
  exists k, In (pub, toImageMsg (mkHeader (clk k) (image_frame o a)) a)
               (expected_image_publishes o clk n images).
Proof.
  revert n. induction images as [|b images IH]; intros n Hin Hp; [contradiction|].
  cbn [expected_image_publishes]. destruct Hin as [->|Hin].
  - exists n. rewrite Hp. left. reflexivity.
  - destruct (IH (S n) Hin Hp) as [k Hk]. exists k. apply in_or_app. right. exact Hk.
Qed.

Lemma expected_image_publishes_sound (o : ROSAirSim F) clk n images pub msg :
  In (pub, msg) (expected_image_publishes o clk n images) ->
  exists a k, In a images
              /\ first_publisher (img_publishers_ o) (image_topic o a) = Some pub
              /\ msg = toImageMsg (mkHeader (clk k) (image_frame o a)) a.
Proof.
  revert n. induction images as [|b images IH]; intros n Hin; [contradiction|].
  cbn [expected_image_publishes] in Hin. apply in_app_or in Hin.
  destruct Hin as [Hin|Hin].
  - destruct (first_publisher (img_publishers_ o) (image_topic o b)) eqn:Hp;
      [|contradiction].
    destruct Hin as [E|[]]. injection E as E1 E2. subst p msg.
    exists b, n. repeat split; [left; reflexivity | exact Hp].
  - destruct (IH (S n) Hin) as (a & k & Ha & Hp & Hm).
    exists a, k. repeat split; [right; exact Ha | exact Hp | exact Hm].
Qed.

End Republish.

(** C6 (amended).  On every tick: when image publishing is enabled and
    the flag is set, the images published are, in buffer order, one
    message for each buffered image whose topic
    "/<ros_namespace>/<camera name>/<image type name>" (lower-cased) has
    a publisher, sent to the first such publisher; a buffered image
    without one is skipped, and otherwise no image is published.  When
    lidar publishing is enabled one cloud is published on
    [base_scan_pub_] and the transforms broadcast end with the
    recomputed laser and world transforms, the latter kept in
    [world_trans_]; when it is disabled no cloud is published. *)
Theorem C6_tick_republishes {F : Type} `{Scalar F} (s : St F) (t dt : F) :
  let o := self s in
  let es := events_of (step_autonomy t dt) s in
  let s' := state_after (step_autonomy t dt) s in
  image_publishes es
  = (if pub_image_data_ o && img_topic_published_ o
     then expected_image_publishes o (clock (world s)) (now_calls (world s))
            (image_data_ o)
     else [])
  /\ (pub_image_data_ o && img_topic_published_ o = true ->
      forall a, In a (image_data_ o) ->
        match first_publisher (img_publishers_ o) (image_topic o a) with
        | Some pub =>
            getTopic pub = image_topic o a
            /\ exists stamp,
                In (pub, toImageMsg (mkHeader stamp (image_frame o a)) a)
                   (image_publishes es)
        | None =>
            forall pub msg, In (pub, msg) (image_publishes es) ->
                            getTopic pub <> image_topic o a
        end)
  /\ (if pub_lidar_data_ o then
        exists st_cloud st_laser st_world tf_images,
          cloud_publishes es
          = [(base_scan_pub_ o,
              lidar_msg (ros_namespace_ o ++ "/base_laser") st_cloud
                (point_cloud (AirSimLidarType.lidar_data (lidar_data_ o))))]
          /\ broadcasts es
             = [tf_images
                ++ [StepLidar.laser_trans_ (lidar_data_ o) (ros_namespace_ o) st_laser;
                    StepLidar.world_trans (lidar_data_ o) (ros_namespace_ o) st_world]]
          /\ world_trans_ (self s')
             = StepLidar.world_trans (lidar_data_ o) (ros_namespace_ o) st_world
      else
        cloud_publishes es = [] /\ exists tf_images, broadcasts es = [tf_images]).
Proof.
  cbv zeta. split; [apply step_autonomy_image_publishes | split].
  - intros Hc a Ha. rewrite step_autonomy_image_publishes, Hc.
    destruct (first_publisher _ _) as [pub|] eqn:Hp.
    + split; [apply (first_publisher_some _ _ Hp)|].
      destruct (expected_image_publishes_complete (self s) (clock (world s))
                  (now_calls (world s)) _ _ Ha Hp) as [k Hk].
      exists (clock (world s) k). exact Hk.
    + intros pub msg Hin.
      apply expected_image_publishes_sound in Hin.
      destruct Hin as (b & k & _ & Hb & _).
      destruct (first_publisher_some _ _ Hb) as [Hin Htopic].
      eapply first_publisher_none; eassumption.
  - apply step_autonomy_lidar.
Qed.

Lemma C6_tick_republishes_witness :
  image_publishes
    (events_of (step_autonomy 0%R 1%R) (mkSt Examples.plugin_buffered Examples.world0))
  = [(mkPublisher "/robot1/front/scene",
      Image.mk (mkHeader 1 "robot1/front/images") "rgb8" Examples.mat0)].
Proof.
  destruct (C6_tick_republishes (mkSt Examples.plugin_buffered Examples.world0) 0%R 1%R)
    as [Himg _].
  rewrite Himg. reflexivity.
Defined.

(** C6 as worded fails: after a first message with the front camera and
    a second one with the rear camera, the buffered rear image has no
    publisher (they were created from the first message only), and the
    tick publishes it nowhere. *)
Lemma C6_buffered_image_without_publisher :
  let s := state_after
             (run [ImageMsg [Examples.img_front]; ImageMsg [Examples.img_rear]])
             Examples.st0 in
  self s = Examples.plugin_two_messages
  /\ ~ republishes_as_worded s 0%R 1%R.
Proof.
  cbv zeta.
  assert (Hs : state_after
                 (run [ImageMsg [Examples.img_front]; ImageMsg [Examples.img_rear]])
                 Examples.st0
               = mkSt Examples.plugin_two_messages
                      (mkWorld (fun n => Z.of_nat n) 3 true)) by reflexivity.
  rewrite Hs. split; [reflexivity|].
  intros [Himg _].
  destruct (Himg eq_refl eq_refl Examples.img_rear (or_introl eq_refl))
    as (pub & msg & Hin & _).
  rewrite step_autonomy_image_publishes in Hin.
  vm_compute in Hin. exact Hin.
Qed.

(* ================================================================== *)
(** * The point cloud of a tick *)

Section Cloud.
Local Open Scope Z_scope.

Lemma lidar_msg_large (frame : string) (stamp : Time) (cloud : list float) :
  3 < Z.of_nat (List.length cloud) ->
  lidar_msg frame stamp cloud
  = PointCloud2.mk (mkHeader stamp frame) 1
      (uint32 (Z.of_nat (List.length cloud) / 3))
      [mkPointField "x" 0 FLOAT32 1; mkPointField "y" 4 FLOAT32 1;
       mkPointField "z" 8 FLOAT32 1]
      false 12
      (uint32 (12 * uint32 (Z.of_nat (List.length cloud) / 3)))
      (flat_map bytes_of_float cloud) true.
Proof.
  intros Hn. unfold lidar_msg.
  replace (Z.of_nat (List.length cloud) >? 3) with true
    by (symmetry; apply Z.gtb_lt; exact Hn).
  reflexivity.
Qed.

Lemma lidar_msg_small (frame : string) (stamp : Time) (cloud : list float) :
  Z.of_nat (List.length cloud) <= 3 ->
  lidar_msg frame stamp cloud = with_header (mkHeader stamp frame) empty_PointCloud2.
Proof.
  intros Hn. unfold lidar_msg.
  destruct (Z.gtb_spec (Z.of_nat (List.length cloud)) 3); [lia | reflexivity].
Qed.

(** What the wording of C8 misses: [row_step] is a 32-bit product. *)
Lemma row_step_wraps (frame : string) (stamp : Time) (cloud : list float) :
  Z.of_nat (List.length cloud) = 1073741826 ->
  PointCloud2.width (lidar_msg frame stamp cloud) = 357913942
  /\ PointCloud2.row_step (lidar_msg frame stamp cloud) = 8
  /\ ~ cloud_message_as_worded cloud (lidar_msg frame stamp cloud).
Proof.
  intros Hn.
  assert (Hm : lidar_msg frame stamp cloud
               = PointCloud2.mk (mkHeader stamp frame) 1 357913942
                   [mkPointField "x" 0 FLOAT32 1; mkPointField "y" 4 FLOAT32 1;
                    mkPointField "z" 8 FLOAT32 1]
                   false 12 8 (flat_map bytes_of_float cloud) true).
  { rewrite lidar_msg_large by lia. rewrite Hn. reflexivity. }
  rewrite Hm. cbn [PointCloud2.width PointCloud2.row_step].
  repeat split. intros [Hbig _]. rewrite Hn in Hbig.
  destruct (Hbig ltac:(lia)) as (_ & _ & _ & _ & Hr & _).
  cbn [PointCloud2.width PointCloud2.row_step] in Hr. lia.
Qed.

Lemma huge_cloud_length :
  Z.of_nat (List.length Examples.huge_cloud) = 1073741826.
Proof.
  unfold Examples.huge_cloud. rewrite repeat_length. apply Z2Nat.id. lia.
Qed.

End Cloud.

(** C8 as worded fails on a cloud of 1073741826 floats: the width is
    357913942 and twelve times the width does not fit 32 bits, so
    [row_step] is 8. *)
Lemma C8_row_step_wraps_at_huge_cloud :
  let s := mkSt (Examples.plugin_with_cloud Examples.huge_cloud) Examples.world0 in
  exists pub msg,
    cloud_publishes (events_of (step_autonomy 0%R 1%R) s) = [(pub, msg)]
    /\ PointCloud2.width msg = 357913942
    /\ PointCloud2.row_step msg = 8
    /\ ~ cloud_message_as_worded Examples.huge_cloud msg.
Proof.
  cbv zeta.
  pose proof (step_autonomy_lidar 0%R 1%R
                (mkSt (Examples.plugin_with_cloud Examples.huge_cloud) Examples.world0))
    as Hl.
  cbv zeta in Hl.
  change (pub_lidar_data_ (self (mkSt (Examples.plugin_with_cloud Examples.huge_cloud)
                                   Examples.world0))) with true in Hl.
  cbv iota in Hl.
  destruct Hl as (st_cloud & st_laser & st_world & tf_images & Hc & _).
  change (point_cloud (AirSimLidarType.lidar_data
            (lidar_data_ (self (mkSt (Examples.plugin_with_cloud Examples.huge_cloud)
                                 Examples.world0)))))
    with Examples.huge_cloud in Hc.
  eexists. eexists. split; [exact Hc|].
  apply row_step_wraps. exact huge_cloud_length.
Qed.

(** C8 (amended).  With lidar publishing enabled a tick publishes one
    cloud message, built from the buffered cloud of [n] floats.  When
    [n > 3]: height 1, width [n / 3] modulo 2^32, the fields x, y, z of
    type FLOAT32 and count 1 at offsets 0, 4, 8, point_step 12,
    row_step [12 * width] modulo 2^32, and as data the bytes of the
    floats in order; width is [n / 3] and row_step is [12 * width]
    whenever [12 * (n / 3) < 2^32].  When [n <= 3] the message carries
    the header only; the callback does buffer a cloud of exactly 3
    floats. *)
Theorem C8_cloud_message {F : Type} `{Scalar F} (s : St F) (t dt : F) :
  pub_lidar_data_ (self s) = true ->
  let cloud := point_cloud (AirSimLidarType.lidar_data (lidar_data_ (self s))) in
  let n := Z.of_nat (List.length cloud) in
  (exists pub msg,
      cloud_publishes (events_of (step_autonomy t dt) s) = [(pub, msg)]
      /\ (3 < n ->
          PointCloud2.height msg = 1
          /\ PointCloud2.width msg = (n / 3) mod 2 ^ 32
          /\ PointCloud2.fields msg
             = [mkPointField "x" 0 FLOAT32 1; mkPointField "y" 4 FLOAT32 1;
                mkPointField "z" 8 FLOAT32 1]
          /\ PointCloud2.point_step msg = 12
          /\ PointCloud2.row_step msg = (12 * PointCloud2.width msg) mod 2 ^ 32
          /\ PointCloud2.data msg = flat_map bytes_of_float cloud
          /\ (12 * (n / 3) < 2 ^ 32 ->
              PointCloud2.width msg = n / 3
              /\ PointCloud2.row_step msg = 12 * PointCloud2.width msg))
      /\ (n <= 3 ->
          PointCloud2.height msg = 0 /\ PointCloud2.width msg = 0
          /\ PointCloud2.fields msg = [] /\ PointCloud2.point_step msg = 0
          /\ PointCloud2.row_step msg = 0 /\ PointCloud2.data msg = []))
  /\ (forall msg_data : AirSimLidarType.t F,
        List.length (point_cloud (AirSimLidarType.lidar_data msg_data)) = 3%nat ->
        lidar_data_ (self (state_after (airsim_lidar_cb msg_data) s)) = msg_data).
Proof.
  intros Hp cloud n. split.
  - pose proof (step_autonomy_lidar t dt s) as Hl. cbv zeta in Hl.
    rewrite Hp in Hl.
    destruct Hl as (st_cloud & st_laser & st_world & tf_images & Hc & _).
    eexists. eexists. split; [exact Hc|]. fold cloud. split.
    + intros Hn. rewrite lidar_msg_large by exact Hn. fold n.
      cbn [PointCloud2.height PointCloud2.width PointCloud2.fields
           PointCloud2.point_step PointCloud2.row_step PointCloud2.data].
      unfold uint32. repeat split.
      * apply Z.mod_small. split; [apply Z.div_pos; lia | lia].
      * rewrite (Z.mod_small (n / 3)) by (split; [apply Z.div_pos; lia | lia]).
        apply Z.mod_small. split; [|assumption].
        apply Z.mul_nonneg_nonneg; [lia | apply Z.div_pos; lia].
    + intros Hn. rewrite lidar_msg_small by exact Hn. repeat split.
  - intros msg_data Hlen. unfold state_after.
    rewrite airsim_lidar_cb_stores by lia. reflexivity.
Qed.

Lemma C8_cloud_message_witness :
  pub_lidar_data_ (Examples.plugin_with_cloud [Examples.f0; Examples.f0; Examples.f0])
  = true
  /\ exists pub msg,
      cloud_publishes
        (events_of (step_autonomy 0%R 1%R)
           (mkSt (Examples.plugin_with_cloud [Examples.f0; Examples.f0; Examples.f0])
              Examples.world0))
      = [(pub, msg)]
      /\ PointCloud2.data msg = [].
Proof.
  split; [reflexivity|].
  destruct (C8_cloud_message
              (mkSt (Examples.plugin_with_cloud [Examples.f0; Examples.f0; Examples.f0])
                 Examples.world0) 0%R 1%R eq_refl)
    as [(pub & msg & Hc & _ & Hsmall) _].
  exists pub, msg. split; [exact Hc|].
  apply Hsmall. cbn. lia.
Defined.

(* ================================================================== *)
(** * The pose computations inside the routines *)

Section InRoutines.
Context {F : Type} `{Scalar F}.

(** The callback broadcasts the camera transform of [ImageCb] for a
    camera name it has not seen. *)
Lemma create_topic_broadcasts (a : AirSimImageType.t F) (s : St F) :
  let o := self s in
  let cam := to_lower_copy (cam_name (AirSimImageType.camera_config a)) in
  let n := now_calls (world s) in
  existsb (fun str => String.eqb str cam) (camera_names_ o) = false ->
  broadcasts (events_of (create_topic a) s)
  = [ImageCb.image_trans_ a (ros_namespace_ o) cam (clock (world s) (S n))
     :: (if pub_lidar_data_ o then []
         else [ImageCb.world_trans a (ros_namespace_ o) (clock (world s) (S (S n)))])].
Proof.
  cbv zeta. intros Hnew.
  unfold create_topic, events_of, broadcasts.
  cbn -[String.append to_lower_copy existsb last].
  rewrite Hnew. cbn -[String.append to_lower_copy last].
  destruct (pub_lidar_data_ (self s)); reflexivity.
Qed.

(** The tick pushes the camera transform of [StepImages] for the first
    buffered image whose camera name, as received, is [cam]. *)
Lemma camera_transform_found (cam : string) (a : AirSimImageType.t F) images (s : St F) :
  let o := self s in
  let n := now_calls (world s) in
  cam_name (AirSimImageType.camera_config a) = cam ->
  result_of (camera_transform cam (a :: images)) s
  = StepImages.image_trans_ a (ros_namespace_ o) cam (clock (world s) n)
    :: (if pub_lidar_data_ o then []
        else [StepImages.world_trans a (ros_namespace_ o) (clock (world s) (S n))]).
Proof.
  cbv zeta. intros Hc. cbn [camera_transform].
  rewrite Hc, String.eqb_refl. unfold result_of.
  cbn -[String.append]. destruct (pub_lidar_data_ (self s)); reflexivity.
Qed.

(** The names are compared as received: a name kept lower-cased in
    [camera_names_] is not found when the buffered image spells it
    with another case. *)
Lemma camera_transform_not_found (cam : string) images (s : St F) :
  (forall a, In a images -> cam_name (AirSimImageType.camera_config a) <> cam) ->
  result_of (camera_transform cam images) s = [].
Proof.
  induction images as [|a images IH]; intros Hn; [reflexivity|].
  cbn [camera_transform].
  destruct (String.eqb_spec (cam_name (AirSimImageType.camera_config a)) cam) as [E|_].
  - exfalso. apply (Hn a); [left; reflexivity | exact E].
  - apply IH. intros b Hb. apply Hn. right. exact Hb.
Qed.

(** The translation of a world transform is the converted position. *)
Lemma world_trans_translation (l : AirSimLidarType.t F) (ns : string) (st : Time) :
  let p := position (AirSimLidarType.vehicle_pose_world_NED l) in
  let w := transform (StepLidar.world_trans l ns st) in
  translation_x w = Eigen.v_y p
  /\ translation_y w = Eigen.v_x p
  /\ translation_z w = (of_Z (-1) * Eigen.v_z p)%sc.
Proof. repeat split; reflexivity. Qed.

End InRoutines.

(* ================================================================== *)
(** * Checks on sample inputs *)

Example to_lower_copy_mixed : to_lower_copy "Front_Cam1" = "front_cam1"%string.
Proof. reflexivity. Qed.

Example to_lower_copy_brackets : to_lower_copy "@AZ[`az{" = "@az[`az{"%string.
Proof. reflexivity. Qed.

Example to_string_samples :
  to_string 12 = "12"%string /\ to_string 0 = "0"%string /\ to_string (-3) = "-3"%string.
Proof. repeat split; reflexivity. Qed.

Example lidar_msg_six :
  let m := lidar_msg "robot1/base_laser" 7
             [Examples.f0; Examples.f0; Examples.f0; Examples.f0; Examples.f0; Examples.f0] in
  PointCloud2.width m = 2 /\ PointCloud2.row_step m = 24
  /\ List.length (PointCloud2.data m) = 24%nat.
Proof. repeat split; reflexivity. Qed.

Example flags_along_a_run :
  flags_of [Tick 0%R 1%R; ImageMsg []; ImageMsg [Examples.img_front];
            ImageMsg [Examples.img_rear]; Tick 1%R 1%R] Examples.st0
  = [false; false; false; true; true; true].
Proof. reflexivity. Qed.

(* ================================================================== *)
(** * What each routine does to the members *)

Section Members.
Context {F : Type} `{Scalar F}.

Lemma same_setup_refl (o : ROSAirSim F) : same_setup o o.
Proof. repeat split. Qed.

Lemma same_setup_trans (o1 o2 o3 : ROSAirSim F) :
  same_setup o1 o2 -> same_setup o2 o3 -> same_setup o1 o3.
Proof.
  unfold same_setup. intros (A1 & A2 & A3 & A4 & A5 & A6) (B1 & B2 & B3 & B4 & B5 & B6).
  repeat split; congruence.
Qed.

Lemma keeps_members_setup (o o' : ROSAirSim F) : keeps_members o o' -> same_setup o o'.
Proof. intros K. rewrite K. repeat split. Qed.

Lemma create_topic_members (a : AirSimImageType.t F) (s : St F) :
  let o := self s in
  let o' := self (state_after (create_topic a) s) in
  same_setup o o'
  /\ image_data_ o' = image_data_ o
  /\ lidar_data_ o' = lidar_data_ o
  /\ img_topic_published_ o' = img_topic_published_ o
  /\ camera_names_ o' = note_cameras (camera_names_ o) [a].
Proof.
  unfold create_topic, state_after, same_setup, note_cameras, camera_name_of.
  cbn -[String.append to_lower_copy existsb last].
  destruct (existsb _ _); cbn -[String.append to_lower_copy last];
    [repeat split; reflexivity|].
  destruct (pub_lidar_data_ (self s)) eqn:Hl; cbn -[String.append to_lower_copy last];
    rewrite ?Hl; repeat split; reflexivity.
Qed.

Lemma for_each_create_topic_members images (s : St F) :
  let o := self s in
  let o' := self (state_after (for_each images create_topic) s) in
  same_setup o o'
  /\ image_data_ o' = image_data_ o
  /\ lidar_data_ o' = lidar_data_ o
  /\ img_topic_published_ o' = img_topic_published_ o
  /\ camera_names_ o' = note_cameras (camera_names_ o) images.
Proof.
  revert s. induction images as [|a images IH]; intros s.
  - cbn. repeat split; reflexivity.
  - cbn [for_each]. rewrite state_after_bind. cbv zeta.
    destruct (create_topic_members a s) as (S1 & I1 & L1 & F1 & N1).
    destruct (IH (state_after (create_topic a) s)) as (S2 & I2 & L2 & F2 & N2).
    cbv zeta in *. split; [eapply same_setup_trans; eassumption|].
    rewrite I2, L2, F2, N2, I1, L1, F1, N1. repeat split; reflexivity.
Qed.

(** The image callback: the message is buffered in every case; the
    camera names grow only when the flag is clear. *)
Lemma airsim_image_cb_members (data : list (AirSimImageType.t F)) (s : St F) :
  let o := self s in
  let o' := self (state_after (airsim_image_cb data) s) in
  same_setup o o'
  /\ image_data_ o' = data
  /\ lidar_data_ o' = lidar_data_ o
  /\ camera_names_ o'
     = if img_topic_published_ o then camera_names_ o
       else note_cameras (camera_names_ o) data.
Proof.
  cbv zeta. destruct data as [|a data].
  - unfold state_after. rewrite airsim_image_cb_empty. cbn.
    destruct (img_topic_published_ (self s)); repeat split; reflexivity.
  - destruct (img_topic_published_ (self s)) eqn:Hf.
    + destruct (airsim_image_cb_later (data := a :: data) s (or_introl Hf)) as [-> _].
      cbn. repeat split; reflexivity.
    + pose proof (for_each_create_topic_members (a :: data)
                    (mkSt (set_image_data_ (a :: data) (self s)) (world s)))
        as (S1 & I1 & L1 & _ & N1).
      cbv zeta in *.
      unfold airsim_image_cb, state_after in *. cbn -[for_each create_topic] in *.
      rewrite Hf. cbn -[for_each create_topic note_cameras].
      rewrite I1, L1, N1. repeat split; apply S1.
Qed.

End Members.

(* ================================================================== *)
(** * Along a run: the setup and the buffers *)

Section AlongRuns.
Context {F : Type} `{Scalar F}.

Lemma exec_members (a : Action F) (s : St F) :
  let o := self s in
  let o' := self (state_after (exec a) s) in
  same_setup o o'
  /\ image_data_ o' = latest_images [a] (image_data_ o)
  /\ lidar_data_ o' = latest_lidar [a] (lidar_data_ o).
Proof.
  cbv zeta. destruct a as [data|data|t dt]; cbn [exec latest_images latest_lidar].
  - destruct (airsim_image_cb_members data s) as (S1 & I1 & L1 & _). auto.
  - unfold airsim_lidar_cb. destruct (_ <? _)%nat; cbn; repeat split; reflexivity.
  - rewrite state_after_bind. cbn [ret state_after fst snd].
    destruct (step_autonomy_evolves t dt s) as [K _].
    split; [apply keeps_members_setup; exact K|].
    rewrite K. split; reflexivity.
Qed.

Lemma latest_images_cons (a : Action F) acts buffered :
  latest_images (a :: acts) buffered = latest_images acts (latest_images [a] buffered).
Proof. destruct a; reflexivity. Qed.

Lemma latest_lidar_cons (a : Action F) acts buffered :
  latest_lidar (a :: acts) buffered = latest_lidar acts (latest_lidar [a] buffered).
Proof. destruct a; reflexivity. Qed.

Lemma run_members (acts : list (Action F)) (s : St F) :
  let o := self s in
  let o' := self (state_after (run acts) s) in
  same_setup o o'
  /\ image_data_ o' = latest_images acts (image_data_ o)
  /\ lidar_data_ o' = latest_lidar acts (lidar_data_ o).
Proof.
  revert s. induction acts as [|a acts IH]; intros s.
  - cbn. repeat split; reflexivity.
  - cbn [run]. rewrite state_after_bind. cbv zeta.
    destruct (exec_members a s) as (S1 & I1 & L1).
    destruct (IH (state_after (exec a) s)) as (S2 & I2 & L2). cbv zeta in *.
    split; [eapply same_setup_trans; eassumption|].
    rewrite I2, L2, I1, L1, <- latest_images_cons, <- latest_lidar_cons.
    split; reflexivity.
Qed.

End AlongRuns.

(** X1.  A tick writes no member of the plugin but [world_trans_]; of
    the environment it only advances the clock. *)
Theorem X1_tick_writes_only_world_trans {F : Type} `{Scalar F} (s : St F) (t dt : F) :
  let s' := state_after (step_autonomy t dt) s in
  self s' = set_world_trans_ (world_trans_ (self s')) (self s)
  /\ clock (world s') = clock (world s)
  /\ (now_calls (world s) <= now_calls (world s'))%nat
  /\ ros_isInitialized (world s') = ros_isInitialized (world s).
Proof.
  cbv zeta. destruct (step_autonomy_evolves t dt s) as [K [k Hk]].
  split; [exact K|]. rewrite Hk. cbn. repeat split. lia.
Qed.

(** X2.  Whatever messages and ticks follow, the members set by [init]
    (the three switches, the namespace and its prefix, the base_scan
    publisher) keep their values. *)
Theorem X2_setup_is_never_rewritten {F : Type} `{Scalar F}
    (acts : list (Action F)) (s : St F) :
  let o := self s in
  let o' := self (state_after (run acts) s) in
  show_camera_images_ o' = show_camera_images_ o
  /\ pub_image_data_ o' = pub_image_data_ o
  /\ pub_lidar_data_ o' = pub_lidar_data_ o
  /\ ros_name_ o' = ros_name_ o
  /\ ros_namespace_ o' = ros_namespace_ o
  /\ base_scan_pub_ o' = base_scan_pub_ o.
Proof. cbv zeta. destruct (run_members acts s) as (S1 & _). exact S1. Qed.

(** X3.  At the end of a run the image buffer holds the list of the
    last image message, empty or not, and the lidar buffer holds the
    sample of the last lidar message that had at least three floats;
    without such a message the buffer is as it was. *)
Theorem X3_buffers_hold_latest_samples {F : Type} `{Scalar F}
    (acts : list (Action F)) (s : St F) :
  let o := self s in
  let o' := self (state_after (run acts) s) in
  image_data_ o' = latest_images acts (image_data_ o)
  /\ lidar_data_ o' = latest_lidar acts (lidar_data_ o).
Proof. cbv zeta. destruct (run_members acts s) as (_ & I1 & L1). auto. Qed.

(* ================================================================== *)
(** * Camera names *)

Section CameraNames.
Context {F : Type} `{Scalar F}.

Lemma to_lower_char_idempotent (c : ascii) :
  to_lower_char (to_lower_char c) = to_lower_char c.
Proof. destruct c as [[] [] [] [] [] [] [] []]; reflexivity. Qed.

Lemma to_lower_copy_idempotent (s : string) : lower_case (to_lower_copy s).
Proof.
  unfold lower_case. induction s as [|c s IH]; [reflexivity|].
  cbn [to_lower_copy]. rewrite to_lower_char_idempotent, IH. reflexivity.
Qed.

Lemma to_lower_copy_length (s : string) :
  String.length (to_lower_copy s) = String.length s.
Proof. induction s as [|c s IH]; [reflexivity|]. cbn. rewrite IH. reflexivity. Qed.

Lemma known_name_iff (n : string) (names : list string) :
  existsb (fun str => String.eqb str n) names = true <-> In n names.
Proof.
  rewrite existsb_exists. split.
  - intros (x & Hin & Heq). apply String.eqb_eq in Heq. subst x. exact Hin.
  - intros Hin. exists n. split; [exact Hin | apply String.eqb_refl].
Qed.

Lemma note_cameras_spec (images : list (AirSimImageType.t F)) (names : list string) :
  NoDup names -> Forall lower_case names ->
  NoDup (note_cameras names images)
  /\ Forall lower_case (note_cameras names images)
  /\ incl names (note_cameras names images)
  /\ (forall a, In a images -> In (camera_name_of a) (note_cameras names images))
  /\ (forall n, In n (note_cameras names images) ->
                In n names \/ exists a, In a images /\ n = camera_name_of a).
Proof.
  revert names. induction images as [|a images IH]; intros names Hnd Hlc.
  - cbn. repeat split; auto using incl_refl. intros a [].
  - cbn [note_cameras].
    destruct (existsb (fun str => String.eqb str (camera_name_of a)) names) eqn:Hk.
    + destruct (IH names Hnd Hlc) as (I1 & I2 & I3 & I4 & I5).
      repeat split; auto.
      * intros b [->|Hb]; [apply I3, known_name_iff, Hk | apply I4, Hb].
      * intros n Hn. destruct (I5 n Hn) as [Hin|(b & Hb & ->)]; [left; exact Hin|].
        right. exists b. split; [right; exact Hb | reflexivity].
    + assert (Hnew : ~ In (camera_name_of a) names).
      { intros Hin. apply known_name_iff in Hin. congruence. }
      assert (Hnd' : NoDup (names ++ [camera_name_of a])).
      { apply NoDup_app; [exact Hnd | repeat constructor; intros [] |].
        intros x Hx [<-|[]]. exact (Hnew Hx). }
      assert (Hlc' : Forall lower_case (names ++ [camera_name_of a])).
      { apply Forall_app. split; [exact Hlc|].
        constructor; [apply to_lower_copy_idempotent | constructor]. }
      destruct (IH _ Hnd' Hlc') as (I1 & I2 & I3 & I4 & I5).
      repeat split; auto.
      * intros x Hx. apply I3, in_or_app. left. exact Hx.
      * intros b [->|Hb]; [|apply I4, Hb].
        apply I3, in_or_app. right. left. reflexivity.
      * intros n Hn. destruct (I5 n Hn) as [Hin|(b & Hb & ->)].
        -- apply in_app_or in Hin. destruct Hin as [Hin|[<-|[]]]; [left; exact Hin|].
           right. exists a. split; [left; reflexivity | reflexivity].
        -- right. exists b. split; [right; exact Hb | reflexivity].
Qed.

Lemma exec_camera_names (a : Action F) (s : St F) :
  camera_names_ (self (state_after (exec a) s))
  = match a with
    | ImageMsg data =>
        if img_topic_published_ (self s) then camera_names_ (self s)
        else note_cameras (camera_names_ (self s)) data
    | _ => camera_names_ (self s)
    end.
Proof.
  destruct a as [data|data|t dt]; cbn [exec].
  - apply airsim_image_cb_members.
  - unfold airsim_lidar_cb. destruct (_ <? _)%nat; reflexivity.
  - rewrite state_after_bind. cbn [ret state_after fst snd].
    apply step_autonomy_keeps.
Qed.

Lemma run_camera_names (acts : list (Action F)) (s : St F) :
  NoDup (camera_names_ (self s)) -> Forall lower_case (camera_names_ (self s)) ->
  let names' := camera_names_ (self (state_after (run acts) s)) in
  NoDup names' /\ Forall lower_case names' /\ incl (camera_names_ (self s)) names'.
Proof.
  revert s. induction acts as [|a acts IH]; intros s Hnd Hlc.
  - cbn. auto using incl_refl.
  - cbn [run]. rewrite state_after_bind. cbv zeta.
    assert (Hstep : NoDup (camera_names_ (self (state_after (exec a) s)))
                    /\ Forall lower_case (camera_names_ (self (state_after (exec a) s)))
                    /\ incl (camera_names_ (self s))
                            (camera_names_ (self (state_after (exec a) s)))).
    { rewrite exec_camera_names. destruct a as [data| |]; auto using incl_refl.
      destruct (img_topic_published_ (self s)); auto using incl_refl.
      destruct (note_cameras_spec data Hnd Hlc) as (I1 & I2 & I3 & _). auto. }
    destruct Hstep as (S1 & S2 & S3).
    destruct (IH _ S1 S2) as (I1 & I2 & I3). cbv zeta in *.
    repeat split; auto. eapply incl_tran; eassumption.
Qed.

End CameraNames.

(** X4.  Along any run the list of camera names stays free of
    duplicates and lower-cased, and no name is ever removed from it. *)
Theorem X4_camera_names_invariant {F : Type} `{Scalar F}
    (acts : list (Action F)) (s : St F) :
  NoDup (camera_names_ (self s)) ->
  Forall lower_case (camera_names_ (self s)) ->
  let names' := camera_names_ (self (state_after (run acts) s)) in
  NoDup names' /\ Forall lower_case names' /\ incl (camera_names_ (self s)) names'.
Proof. apply run_camera_names. Qed.

Lemma X4_camera_names_invariant_witness :
  NoDup (camera_names_ (self Examples.st0))
  /\ Forall lower_case (camera_names_ (self Examples.st0))
  /\ NoDup (camera_names_
             (self (state_after
                      (run [ImageMsg [MoreExamples.img_Front; Examples.img_front;
                                      Examples.img_rear]])
                      Examples.st0))).
Proof.
  split; [constructor | split; [constructor|]].
  apply (X4_camera_names_invariant
           [ImageMsg [MoreExamples.img_Front; Examples.img_front; Examples.img_rear]]
           Examples.st0); constructor.
Defined.

(* ================================================================== *)
(** * The images of the first message *)

Section FirstMessage.
Context {F : Type} `{Scalar F}.

Lemma sent_of_setup (o o' : ROSAirSim F) (a : AirSimImageType.t F) :
  ros_namespace_ o' = ros_namespace_ o -> sent_of o' a = sent_of o a.
Proof. unfold sent_of, image_topic, image_frame. intros ->. reflexivity. Qed.

Lemma seen_toImageMsg (pub : Publisher) (o : ROSAirSim F) (stamp : Time)
      (a : AirSimImageType.t F) :
  getTopic pub = image_topic o a ->
  seen (pub, toImageMsg (mkHeader stamp (image_frame o a)) a) = sent_of o a.
Proof.
  intros Ht. unfold seen, sent_of, toImageMsg. cbn [fst snd]. rewrite Ht.
  destruct (pixels_as_float (AirSimImageType.camera_config a)); reflexivity.
Qed.

(** One round of the topic-creating loop publishes its image on the
    publisher it has just created. *)
Lemma create_topic_publishes (a : AirSimImageType.t F) (s : St F) :
  map seen (image_publishes (events_of (create_topic a) s)) = [sent_of (self s) a].
Proof.
  assert (He : image_publishes (events_of (create_topic a) s)
               = [(mkPublisher (image_topic (self s) a),
                   toImageMsg (mkHeader (clock (world s) (now_calls (world s)))
                                 (image_frame (self s) a)) a)]).
  { unfold create_topic, events_of, image_publishes, image_topic, image_frame.
    cbn -[String.append to_lower_copy existsb last].
    rewrite last_last.
    destruct (existsb _ _); cbn -[String.append to_lower_copy]; [reflexivity|].
    destruct (pub_lidar_data_ (self s)); reflexivity. }
  rewrite He. cbn [map]. rewrite seen_toImageMsg; reflexivity.
Qed.

Lemma for_each_create_topic_publishes images (s : St F) :
  map seen (image_publishes (events_of (for_each images create_topic) s))
  = map (sent_of (self s)) images.
Proof.
  revert s. induction images as [|a images IH]; intros s; [reflexivity|].
  cbn [for_each]. rewrite events_of_bind, image_publishes_app, map_app.
  rewrite create_topic_publishes, IH. cbn [map app]. f_equal.
  apply map_ext. intros b. apply sent_of_setup.
  apply (create_topic_members a s).
Qed.

Lemma airsim_image_cb_publishes (data : list (AirSimImageType.t F)) (s : St F) :
  map seen (image_publishes (events_of (airsim_image_cb data) s))
  = if img_topic_published_ (self s) then [] else map (sent_of (self s)) data.
Proof.
  rewrite airsim_image_cb_events. destruct data as [|a data].
  - destruct (img_topic_published_ (self s)); reflexivity.
  - change (image_publishes (?x :: ?y :: ?z :: ?l)) with (image_publishes l).
    destruct (img_topic_published_ (self s)); [reflexivity|].
    rewrite image_publishes_app, map_app, for_each_create_topic_publishes.
    cbn [image_publishes flat_map map self]. rewrite app_nil_r. reflexivity.
Qed.

Lemma first_publisher_finds pubs topic (pub : Publisher) :
  In pub pubs -> getTopic pub = topic ->
  exists pub', first_publisher pubs topic = Some pub' /\ getTopic pub' = topic.
Proof.
  intros Hin Ht. destruct (first_publisher pubs topic) as [pub'|] eqn:Hf.
  - exists pub'. split; [reflexivity | apply (first_publisher_some _ _ Hf)].
  - exfalso. eapply first_publisher_none; eassumption.
Qed.

(** A tick publishes every buffered image when each has a publisher. *)
Lemma expected_image_publishes_all (o : ROSAirSim F) clk n images :
  (forall a, In a images ->
             exists pub, In pub (img_publishers_ o) /\ getTopic pub = image_topic o a) ->
  map seen (expected_image_publishes o clk n images) = map (sent_of o) images.
Proof.
  revert n. induction images as [|a images IH]; intros n Hall; [reflexivity|].
  cbn [expected_image_publishes map].
  destruct (Hall a (or_introl eq_refl)) as (pub & Hin & Ht).
  destruct (first_publisher_finds _ _ Hin Ht) as (pub' & -> & Ht').
  cbn [app map]. rewrite seen_toImageMsg by exact Ht'. f_equal.
  apply IH. intros b Hb. apply Hall. right. exact Hb.
Qed.

End FirstMessage.

(** X5.  The image callback publishes images only when it finds the
    flag clear: then every image of the message goes out once, in
    order, on its own topic "/<ns>/<camera>/<type>" with frame
    "<ns>/<camera>/images" and encoding "" for float pixels, "rgb8"
    otherwise.  With the flag set the callback publishes nothing. *)
Theorem X5_callback_publishes_first_message {F : Type} `{Scalar F}
    (data : list (AirSimImageType.t F)) (s : St F) :
  map seen (image_publishes (events_of (airsim_image_cb data) s))
  = if img_topic_published_ (self s) then [] else map (sent_of (self s)) data.
Proof. apply airsim_image_cb_publishes. Qed.

(** X6.  If image publishing is on and the flag is clear when an image
    message arrives, the tick that follows publishes every image of
    that message again, in order, each on its own topic. *)
Theorem X6_tick_after_first_message {F : Type} `{Scalar F}
    (data : list (AirSimImageType.t F)) (s : St F) (t dt : F) :
  pub_image_data_ (self s) = true ->
  img_topic_published_ (self s) = false ->
  let s1 := state_after (airsim_image_cb data) s in
  map seen (image_publishes (events_of (step_autonomy t dt) s1))
  = map (sent_of (self s)) data.
Proof.
  intros Hp Hf s1. rewrite step_autonomy_image_publishes.
  destruct (airsim_image_cb_members data s) as (S1 & I1 & _). fold s1 in S1, I1.
  destruct S1 as (_ & P1 & _ & _ & N1 & _). rewrite P1, Hp, I1. cbn [andb].
  destruct data as [|a data].
  - destruct (img_topic_published_ (self s1)); reflexivity.
  - destruct (airsim_image_cb_first (data := a :: data) s Hf ltac:(discriminate))
      as (F1 & Pubs & _). fold s1 in F1, Pubs. rewrite F1.
    rewrite expected_image_publishes_all.
    + apply map_ext. intros b. apply sent_of_setup. exact N1.
    + intros b Hb. exists (mkPublisher (image_topic (self s) b)). split.
      * rewrite Pubs. apply in_or_app. right.
        apply (in_map (fun a => mkPublisher (image_topic (self s) a))). exact Hb.
      * unfold image_topic. rewrite N1. reflexivity.
Qed.

Lemma X6_tick_after_first_message_witness :
  pub_image_data_ (self Examples.st0) = true
  /\ img_topic_published_ (self Examples.st0) = false
  /\ map seen
       (image_publishes
          (events_of (step_autonomy 0%R 1%R)
             (state_after (airsim_image_cb [Examples.img_front; Examples.img_rear])
                Examples.st0)))
     = [("/robot1/front/scene", "robot1/front/images", "rgb8", Examples.mat0);
        ("/robot1/rear/depth", "robot1/rear/images", "", Examples.mat0)]%string.
Proof.
  split; [reflexivity | split; [reflexivity|]].
  rewrite (X6_tick_after_first_message [Examples.img_front; Examples.img_rear]
             Examples.st0 0%R 1%R eq_refl eq_refl).
  reflexivity.
Defined.

(* ================================================================== *)
(** * [init] and what follows it *)

(** X7.  [init] leaves the buffers, the image publishers, the camera
    names and the flag as it finds them: initialising again does not
    undo the bookkeeping of the first image message. *)
Theorem X7_init_keeps_bookkeeping {F : Type} `{Scalar F} `{ParseUtils}
    (params : Params) (parent_ : Entity F) (s : St F) :
  let o := self s in
  let o' := self (state_after (init params parent_) s) in
  img_publishers_ o' = img_publishers_ o
  /\ camera_names_ o' = camera_names_ o
  /\ image_data_ o' = image_data_ o
  /\ lidar_data_ o' = lidar_data_ o
  /\ img_topic_published_ o' = img_topic_published_ o.
Proof.
  unfold init, when, ros_init, state_after. cbv zeta.
  destruct (get_bool "show_camera_images" params "false"),
           (get_bool "pub_image_data" params "true"),
           (get_bool "pub_lidar_data" params "true");
    cbn -[String.append to_string];
    destruct (ros_isInitialized (world s));
    cbn -[String.append to_string]; repeat split; reflexivity.
Qed.

(** X8.  [init] advertises exactly one topic, "<ns>/base_scan", and
    keeps its publisher; it subscribes to the lidar messages exactly
    when lidar publishing is switched on and to the image messages
    exactly when image publishing is, in this order; it calls
    [ros::init] only when ROS is not initialised yet, and publishes no
    image and no cloud. *)
Theorem X8_init_setup {F : Type} `{Scalar F} `{ParseUtils}
    (params : Params) (parent_ : Entity F) (s : St F) :
  let es := events_of (init params parent_) s in
  let s' := state_after (init params parent_) s in
  let o' := self s' in
  advertised es = [(ros_namespace_ o' ++ "/base_scan")%string]
  /\ base_scan_pub_ o' = mkPublisher (ros_namespace_ o' ++ "/base_scan")
  /\ pub_lidar_data_ o' = get_bool "pub_lidar_data" params "true"
  /\ pub_image_data_ o' = get_bool "pub_image_data" params "true"
  /\ show_camera_images_ o' = get_bool "show_camera_images" params "false"
  /\ subscriptions es
     = (if pub_lidar_data_ o'
        then [("LocalNetwork"%string, "AirSimLidar"%string)] else [])
       ++ (if pub_image_data_ o'
           then [("LocalNetwork"%string, "AirSimImages"%string)] else [])
  /\ ros_inits es = (if ros_isInitialized (world s) then [] else [tt])
  /\ ros_isInitialized (world s') = true
  /\ image_publishes es = []
  /\ cloud_publishes es = [].
Proof.
  unfold init, when, ros_init, events_of, state_after, advertised, subscriptions,
    ros_inits, image_publishes, cloud_publishes. cbv zeta.
  destruct (get_bool "show_camera_images" params "false"),
           (get_bool "pub_image_data" params "true"),
           (get_bool "pub_lidar_data" params "true");
    cbn -[String.append to_string];
    destruct (ros_isInitialized (world s)) eqn:Hr;
    cbn -[String.append to_string]; rewrite ?Hr; repeat split; reflexivity.
Qed.

(* ================================================================== *)
(** * The clouds of a run *)

Section CloudsOfRun.
Context {F : Type} `{Scalar F}.

Lemma lidar_msg_header (frame : string) (stamp : Time) (cloud : list float) :
  PointCloud2.header (lidar_msg frame stamp cloud) = mkHeader stamp frame.
Proof. unfold lidar_msg. destruct (_ >? _)%Z; reflexivity. Qed.

Lemma create_topic_cloud_publishes (a : AirSimImageType.t F) (s : St F) :
  cloud_publishes (events_of (create_topic a) s) = [].
Proof.
  unfold create_topic, events_of, cloud_publishes.
  cbn -[String.append to_lower_copy existsb last].
  destruct (existsb _ _); cbn -[String.append to_lower_copy last]; [reflexivity|].
  destruct (pub_lidar_data_ (self s)); reflexivity.
Qed.

Lemma for_each_create_topic_cloud_publishes images (s : St F) :
  cloud_publishes (events_of (for_each images create_topic) s) = [].
Proof.
  revert s. induction images as [|a images IH]; intros s; [reflexivity|].
  cbn [for_each]. rewrite events_of_bind, cloud_publishes_app.
  rewrite create_topic_cloud_publishes, IH. reflexivity.
Qed.

Lemma airsim_image_cb_cloud_publishes (data : list (AirSimImageType.t F)) (s : St F) :
  cloud_publishes (events_of (airsim_image_cb data) s) = [].
Proof.
  rewrite airsim_image_cb_events. destruct data as [|a data]; [reflexivity|].
  change (cloud_publishes (?x :: ?y :: ?z :: ?l)) with (cloud_publishes l).
  destruct (img_topic_published_ (self s)); [reflexivity|].
  rewrite cloud_publishes_app, for_each_create_topic_cloud_publishes. reflexivity.
Qed.

(** The clouds of one action: one per tick when lidar publishing is
    on, on the base_scan publisher, in the laser frame. *)
Lemma exec_cloud_publishes (a : Action F) (s : St F) :
  let o := self s in
  let clouds := cloud_publishes (events_of (exec a) s) in
  List.length clouds = (if pub_lidar_data_ o then ticks_in [a] else 0%nat)
  /\ forall pub msg, In (pub, msg) clouds ->
       pub = base_scan_pub_ o
       /\ frame_id (PointCloud2.header msg) = (ros_namespace_ o ++ "/base_laser")%string.
Proof.
  cbv zeta. destruct a as [data|data|t dt]; cbn [exec ticks_in].
  - rewrite airsim_image_cb_cloud_publishes.
    split; [destruct (pub_lidar_data_ _); reflexivity | intros ? ? []].
  - unfold airsim_lidar_cb.
    destruct (_ <? _)%nat; cbn; (split; [destruct (pub_lidar_data_ _); reflexivity
                                         | intros ? ? []]).
  - rewrite events_of_bind. cbn [ret events_of snd]. rewrite app_nil_r.
    pose proof (step_autonomy_lidar t dt s) as Hl. cbv zeta in Hl.
    destruct (pub_lidar_data_ (self s)).
    + destruct Hl as (st_cloud & _ & _ & _ & -> & _). split; [reflexivity|].
      intros pub msg [E|[]]. injection E as <- <-.
      split; [reflexivity | rewrite lidar_msg_header; reflexivity].
    + destruct Hl as [-> _]. split; [reflexivity | intros ? ? []].
Qed.

Lemma run_cloud_publishes (acts : list (Action F)) (s : St F) :
  let o := self s in
  let clouds := cloud_publishes (events_of (run acts) s) in
  List.length clouds = (if pub_lidar_data_ o then ticks_in acts else 0%nat)
  /\ forall pub msg, In (pub, msg) clouds ->
       pub = base_scan_pub_ o
       /\ frame_id (PointCloud2.header msg) = (ros_namespace_ o ++ "/base_laser")%string.
Proof.
  revert s. induction acts as [|a acts IH]; intros s.
  - cbn. split; [destruct (pub_lidar_data_ _); reflexivity | intros ? ? []].
  - cbn [run]. rewrite events_of_bind, cloud_publishes_app. cbv zeta.
    destruct (exec_cloud_publishes a s) as [L1 P1].
    destruct (IH (state_after (exec a) s)) as [L2 P2].
    destruct (exec_members a s) as ((_ & _ & S3 & _ & S5 & S6) & _).
    cbv zeta in *. rewrite S3, S5, S6 in *. split.
    + rewrite length_app, L1, L2.
      destruct (pub_lidar_data_ (self s)); [|reflexivity].
      destruct a; reflexivity.
    + intros pub msg Hin. apply in_app_or in Hin.
      destruct Hin as [Hin|Hin]; [apply P1 | apply P2]; exact Hin.
Qed.

End CloudsOfRun.

(** X9.  In any run, with lidar publishing switched on there is exactly
    one cloud per tick and otherwise none; the callbacks never publish
    a cloud, and every cloud goes out on the base_scan publisher with
    frame "<ns>/base_laser". *)
Theorem X9_one_cloud_per_tick {F : Type} `{Scalar F}
    (acts : list (Action F)) (s : St F) :
  let o := self s in
  let clouds := cloud_publishes (events_of (run acts) s) in
  List.length clouds = (if pub_lidar_data_ o then ticks_in acts else 0%nat)
  /\ forall pub msg, In (pub, msg) clouds ->
       pub = base_scan_pub_ o
       /\ frame_id (PointCloud2.header msg) = (ros_namespace_ o ++ "/base_laser")%string.
Proof. apply run_cloud_publishes. Qed.

(* ================================================================== *)
(** * The size of the cloud data *)

Lemma cloud_data_length (cloud : list float) :
  List.length (flat_map bytes_of_float cloud) = (4 * List.length cloud)%nat.
Proof.
  induction cloud as [|f cloud IH]; [reflexivity|].
  cbn [flat_map bytes_of_float app List.length]. rewrite IH. lia.
Qed.

(** X10.  For a buffered cloud of [n > 3] floats the message carries
    [4 * n] bytes of data.  When [12 * (n / 3)] fits 32 bits this is
    [row_step * height] plus [4 * (n mod 3)] bytes: the floats of an
    incomplete last point are sent along, beyond what width and
    row_step announce. *)
Theorem X10_cloud_data_size (frame : string) (stamp : Time) (cloud : list float) :
  let n := Z.of_nat (List.length cloud) in
  let msg := lidar_msg frame stamp cloud in
  3 < n ->
  Z.of_nat (List.length (PointCloud2.data msg)) = 4 * n
  /\ (12 * (n / 3) < 2 ^ 32 ->
      Z.of_nat (List.length (PointCloud2.data msg))
      = PointCloud2.row_step msg * PointCloud2.height msg + 4 * (n mod 3)).
Proof.
  intros n msg Hn. subst msg. rewrite lidar_msg_large by exact Hn. fold n.
  cbn [PointCloud2.data PointCloud2.row_step PointCloud2.height].
  rewrite cloud_data_length. split; [lia|]. intros Hb.
  assert (H0 : 0 <= n / 3) by (apply Z.div_pos; lia).
  unfold uint32. rewrite (Z.mod_small (n / 3)) by lia.
  rewrite Z.mod_small by lia.
  pose proof (Z.div_mod n 3 ltac:(lia)) as Hd. lia.
Qed.

Lemma X10_cloud_data_size_witness :
  let cloud := [Examples.f0; Examples.f0; Examples.f0; Examples.f0] in
  let msg := lidar_msg "robot1/base_laser" 0 cloud in
  3 < Z.of_nat (List.length cloud)
  /\ Z.of_nat (List.length (PointCloud2.data msg)) = 16
  /\ PointCloud2.row_step msg * PointCloud2.height msg = 12.
Proof.
  cbv zeta. split; [cbn; lia|].
  destruct (X10_cloud_data_size "robot1/base_laser" 0
              [Examples.f0; Examples.f0; Examples.f0; Examples.f0])
    as [Hlen _]; [cbn; lia|].
  split; [exact Hlen | reflexivity].
Defined.

(* ================================================================== *)
(** * Camera names are compared as received *)

Section AsReceived.
Context {F : Type} `{Scalar F}.

Lemma camera_transform_skips (cam : string) images (s : St F) :
  (forall a, In a images -> cam_name (AirSimImageType.camera_config a) <> cam) ->
  camera_transform cam images s = (([], s), []).
Proof.
  induction images as [|a images IH]; intros Hn; [reflexivity|].
  cbn [camera_transform].
  destruct (String.eqb_spec (cam_name (AirSimImageType.camera_config a)) cam) as [E|_].
  - exfalso. apply (Hn a); [left; reflexivity | exact E].
  - apply IH. intros b Hb. apply Hn. right. exact Hb.
Qed.

Lemma camera_transforms_skips names images (s : St F) :
  (forall cam a, In cam names -> In a images ->
                 cam_name (AirSimImageType.camera_config a) <> cam) ->
  camera_transforms names images s = (([], s), []).
Proof.
  induction names as [|cam names IH]; intros Hn; [reflexivity|].
  cbn [camera_transforms]. unfold bind.
  rewrite camera_transform_skips
    by (intros a Ha; apply Hn; [left; reflexivity | exact Ha]).
  cbn [fst snd]. rewrite IH by (intros c a Hc Ha; apply Hn; [right; exact Hc | exact Ha]).
  reflexivity.
Qed.

Lemma step_autonomy_broadcasts (t dt : F) (s : St F) :
  let s1 := state_after (image_branch (self s)) s in
  broadcasts (events_of (step_autonomy t dt) s)
  = [result_of (image_branch (self s)) s ++ result_of (lidar_branch (self s1)) s1].
Proof.
  cbv zeta. rewrite step_autonomy_events. cbv zeta.
  change (broadcasts (?a :: ?b :: ?c :: ?d :: ?l)) with (broadcasts l).
  rewrite !broadcasts_app, image_branch_broadcasts.
  replace (broadcasts (events_of (lidar_branch _) _))
    with (@nil (list (TransformStamped F)))
    by (unfold lidar_branch; destruct (pub_lidar_data_ _); reflexivity).
  reflexivity.
Qed.

(** The image branch of a tick when no stored name is the raw name of
    a buffered image. *)
Lemma image_branch_no_camera (s : St F) :
  (forall cam a, In cam (camera_names_ (self s)) -> In a (image_data_ (self s)) ->
                 cam_name (AirSimImageType.camera_config a) <> cam) ->
  result_of (image_branch (self s)) s = []
  /\ self (state_after (image_branch (self s)) s) = self s.
Proof.
  intros Hn. unfold image_branch.
  destruct (pub_image_data_ (self s) && img_topic_published_ (self s));
    [|split; reflexivity].
  unfold update_images, result_of, state_after, bind.
  cbn [this fst snd].
  pose proof (for_each_publish_image_state (image_data_ (self s)) s) as Hst.
  unfold state_after in Hst. rewrite camera_transforms_skips.
  - cbn [fst snd]. rewrite Hst. split; reflexivity.
  - exact Hn.
Qed.

End AsReceived.

(** X11.  The tick looks a stored camera name up among the raw camera
    names of the buffered images.  The stored names being lower-cased,
    when every buffered image spells its camera name with a capital
    the tick broadcasts no camera transform at all: only the laser and
    world transforms with lidar publishing on, and otherwise an empty
    list, [world_trans_] staying as it was. *)
Theorem X11_capitalised_camera_gets_no_transform {F : Type} `{Scalar F}
    (s : St F) (t dt : F) :
  let o := self s in
  let es := events_of (step_autonomy t dt) s in
  let s' := state_after (step_autonomy t dt) s in
  Forall lower_case (camera_names_ o) ->
  (forall a, In a (image_data_ o) ->
             ~ lower_case (cam_name (AirSimImageType.camera_config a))) ->
  if pub_lidar_data_ o then
    exists st_laser st_world,
      broadcasts es
      = [[StepLidar.laser_trans_ (lidar_data_ o) (ros_namespace_ o) st_laser;
          StepLidar.world_trans (lidar_data_ o) (ros_namespace_ o) st_world]]
  else
    broadcasts es = [[]] /\ world_trans_ (self s') = world_trans_ o.
Proof.
  cbv zeta. intros Hlc Hcap.
  assert (Hn : forall cam a, In cam (camera_names_ (self s)) ->
                 In a (image_data_ (self s)) ->
                 cam_name (AirSimImageType.camera_config a) <> cam).
  { intros cam a Hc Ha E. apply (Hcap a Ha). rewrite E.
    rewrite Forall_forall in Hlc. apply Hlc. exact Hc. }
  destruct (image_branch_no_camera s Hn) as [Hres Hself].
  rewrite step_autonomy_broadcasts, step_autonomy_state. cbv zeta.
  rewrite Hres, Hself. unfold lidar_branch.
  destruct (pub_lidar_data_ (self s)).
  - destruct (publish_lidar_spec (state_after (image_branch (self s)) s))
      as (_ & Hr & _). cbv zeta in Hr. rewrite Hr, Hself.
    do 2 eexists. reflexivity.
  - cbn [result_of state_after ret fst snd app]. rewrite Hself. split; reflexivity.
Qed.

Lemma X11_capitalised_camera_gets_no_transform_witness :
  let s0 := mkSt MoreExamples.plugin_images_only Examples.world0 in
  let s := state_after (airsim_image_cb [MoreExamples.img_Front]) s0 in
  camera_names_ (self s) = ["front"%string]
  /\ List.length (broadcasts (events_of (airsim_image_cb [MoreExamples.img_Front]) s0))
     = 1%nat
  /\ broadcasts (events_of (step_autonomy 0%R 1%R) s) = [[]].
Proof.
  cbv zeta. split; [reflexivity | split; [reflexivity|]].
  apply (X11_capitalised_camera_gets_no_transform
           (state_after (airsim_image_cb [MoreExamples.img_Front])
              (mkSt MoreExamples.plugin_images_only Examples.world0)) 0%R 1%R).
  - repeat constructor.
  - intros a [<-|[]]. discriminate.
Defined.

(* ================================================================== *)
(** * Geometry of the conversion, over the reals *)

Section ConversionGeometry.
Import Eigen.
Local Open Scope R_scope.

Lemma norm2_mul (a b : Quaternion R) :
  Quat.norm2 (quat_mul a b) = Quat.norm2 a * Quat.norm2 b.
Proof. destruct a, b. unfold Quat.norm2, quat_mul; simpl. ring. Qed.

Lemma norm2_Rx : Quat.norm2 (Spec.Rx (Spec.deg (-180))) = 1.
Proof. rewrite Rx_minus_180. unfold Quat.norm2; simpl. ring. Qed.

Lemma norm2_Rz : Quat.norm2 (Spec.Rz (Spec.deg 90)) = 1.
Proof.
  rewrite Rz_plus_90. unfold Quat.norm2; simpl.
  pose proof inv_sqrt2_sqr as Hs. lra.
Qed.

Lemma norm2_orientation_ENU (q : Quaternion R) :
  Quat.norm2 (Spec.orientation_ENU q) = Quat.norm2 q.
Proof.
  unfold Spec.orientation_ENU. rewrite !norm2_mul, norm2_Rx, norm2_Rz. ring.
Qed.

(** The matrix of a unit quaternion is orthogonal. *)
Lemma rotation_orthogonal (q : Quaternion R) :
  Quat.unit q ->
  mat_mul (transpose (toRotationMatrix q)) (toRotationMatrix q) = Quat.I3.
Proof.
  destruct q as [w x y z]. unfold Quat.unit, Quat.norm2. cbn [q_w q_x q_y q_z].
  intros Hu. unfold mat_mul, mat_vec, transpose, toRotationMatrix, coeff, Quat.I3.
  cbn. f_equal; nsatz.
Qed.

(** Quaternion to matrix and back gives the quaternion again, for a
    unit quaternion with [w > 1/2]. *)
Lemma quat_of_matrix_toRotationMatrix (q : Quaternion R) :
  Quat.unit q -> 1 / 2 < q_w q ->
  quat_of_matrix (toRotationMatrix q) = q.
Proof.
  destruct q as [w x y z]. unfold Quat.unit, Quat.norm2. cbn [q_w q_x q_y q_z].
  intros Hu Hw.
  unfold quat_of_matrix, toRotationMatrix, half. cbn.
  assert (Ht : 1 - (2 * y * y + 2 * z * z) + (1 - (2 * x * x + 2 * z * z))
               + (1 - (2 * x * x + 2 * y * y)) = (2 * w) * (2 * w) - 1) by nsatz.
  rewrite Ht.
  destruct (Rgt_dec (2 * w * (2 * w) - 1) 0) as [_|Hn]; [|exfalso; apply Hn; nra].
  replace (2 * w * (2 * w) - 1 + 1) with ((2 * w) * (2 * w)) by ring.
  rewrite sqrt_square by lra.
  f_equal; field; lra.
Qed.

Lemma sqrt_sq_pos (c : R) : 0 < c -> sqrt ((2 * c) * (2 * c)) = 2 * c.
Proof. intros Hc. apply sqrt_square. lra. Qed.

Lemma sqrt_sq_neg (c : R) : c < 0 -> sqrt ((2 * c) * (2 * c)) = - (2 * c).
Proof.
  intros Hc. replace ((2 * c) * (2 * c)) with ((- (2 * c)) * (- (2 * c))) by ring.
  apply sqrt_square. lra.
Qed.

(** In the branch of [quat_of_matrix] whose pivot is the coefficient
    [c]: the square root is [2 * |c|], and the result is the quaternion
    or its opposite according to the sign of [c]. *)
Ltac pivot c :=
  assert (Hc : c <> 0) by nra;
  match goal with
  | |- context [sqrt ?e] => replace e with ((2 * c) * (2 * c)) by nsatz
  end;
  destruct (Rlt_dec 0 c);
  [ left; rewrite sqrt_sq_pos by assumption
  | right; rewrite sqrt_sq_neg by lra ];
  f_equal; field; lra.

(** Quaternion to matrix and back, for any unit quaternion: the
    quaternion or its opposite come back. *)
Lemma quat_of_matrix_round_trip (q : Quaternion R) :
  Quat.unit q ->
  quat_of_matrix (toRotationMatrix q) = q
  \/ quat_of_matrix (toRotationMatrix q) = Quat.qneg q.
Proof.
  destruct q as [w x y z]. unfold Quat.unit, Quat.norm2, Quat.qneg.
  cbn [q_w q_x q_y q_z]. intros Hu.
  unfold quat_of_matrix, toRotationMatrix, half. cbn.
  destruct (Rgt_dec _ 0) as [Ht|Ht].
  - pivot w.
  - destruct (Rgt_dec (1 - (2 * x * x + 2 * z * z)) (1 - (2 * y * y + 2 * z * z)))
      as [H1|H1]; cbn; destruct (Rgt_dec _ _) as [H2|H2]; cbn.
    + pivot z.
    + pivot y.
    + pivot z.
    + pivot x.
Qed.

Lemma quat_of_matrix_I3 : quat_of_matrix Quat.I3 = mkQuaternion 1 0 0 0.
Proof.
  unfold quat_of_matrix, Quat.I3, half. cbn.
  destruct (Rgt_dec (1 + 1 + 1) 0) as [_|Hn]; [|exfalso; apply Hn; lra].
  replace (1 + 1 + 1 + 1) with (2 * 2) by ring. rewrite sqrt_square by lra.
  f_equal; lra.
Qed.

(** A frame seen from itself: the identity. *)
Lemma relative_to_itself (p : Vector3 R) (q : Quaternion R) :
  Quat.unit q ->
  transform_of_isometry
    (compose (inverse (translation_mul_quat p q)) (translation_mul_quat p q))
  = Quat.identity.
Proof.
  intros Hu. unfold transform_of_isometry, compose, inverse, translation_mul_quat, rotation.
  cbn [linear translation]. rewrite (rotation_orthogonal Hu), quat_of_matrix_I3.
  unfold Quat.identity, vec_add, vec_opp. cbn [v_x v_y v_z q_w q_x q_y q_z].
  f_equal; try reflexivity; cbn [fadd fopp R_Scalar]; ring.
Qed.

Lemma orientation_of_lidar_sample (l : AirSimLidarType.t R) :
  StepLidar.vehicle_orientation_ENU l
  = Spec.orientation_ENU (orientation (AirSimLidarType.vehicle_pose_world_NED l)).
Proof. apply orientation_convention. Qed.

End ConversionGeometry.

Section PoseTheorems.
Import Eigen.
Local Open Scope R_scope.

Lemma unit_orientation_ENU (q : Quaternion R) :
  Quat.unit q -> Quat.unit (Spec.orientation_ENU q).
Proof. unfold Quat.unit. rewrite norm2_orientation_ENU. auto. Qed.

End PoseTheorems.

(** X12.  The fixed rotation the code applies to orientations
    (-180 degrees about X, then +90 degrees about Z), taken as a
    matrix, sends every vector (x, y, z) to (y, x, -z): it is the rule
    the code applies to positions, so that positions and orientations
    are converted by one and the same change of frame. *)
Theorem X12_fixed_rotation_is_position_rule (l : AirSimLidarType.t R) :
  let fixed :=
    Eigen.quat_mul
      (Eigen.quat_of_angle_axis (Eigen.mkAngleAxis (@StepLidar.zTo R _) Eigen.UnitZ))
      (Eigen.quat_of_angle_axis (Eigen.mkAngleAxis (@StepLidar.xTo R _) Eigen.UnitX)) in
  (forall p : Eigen.Vector3 R,
      Eigen.mat_vec (Eigen.toRotationMatrix fixed) p
      = Eigen.mkVector3 (Eigen.v_y p) (Eigen.v_x p) (- Eigen.v_z p)%R)
  /\ Eigen.mat_vec (Eigen.toRotationMatrix fixed)
       (position (AirSimLidarType.vehicle_pose_world_NED l))
     = StepLidar.vehicle_position_ENU l
  /\ Eigen.mat_vec (Eigen.toRotationMatrix fixed)
       (position (AirSimLidarType.lidar_pose_world_NED l))
     = StepLidar.lidar_position_world_ENU l.
Proof.
  cbv zeta.
  change (@StepLidar.zTo R _) with (@ImageCb.zTo R _).
  change (@StepLidar.xTo R _) with (@ImageCb.xTo R _).
  rewrite quat_of_xTo, quat_of_zTo. repeat split.
  - intros p. apply rotation_agrees_with_position.
  - rewrite rotation_agrees_with_position. symmetry. apply position_convention.
  - rewrite rotation_agrees_with_position. symmetry. apply position_convention.
Qed.

(** X13.  The converted orientation of a pose with quaternion
    (w, x, y, z) is (x + y, -(w + z), z - w, x - y) / sqrt 2, and it
    has the norm of the quaternion received: a unit quaternion stays a
    unit quaternion. *)
Theorem X13_converted_orientation (l : AirSimLidarType.t R) :
  let q := orientation (AirSimLidarType.vehicle_pose_world_NED l) in
  let q' := StepLidar.vehicle_orientation_ENU l in
  q' = Eigen.mkQuaternion
         (1 / sqrt 2 * (Eigen.q_x q + Eigen.q_y q))%R
         (- (1 / sqrt 2) * (Eigen.q_w q + Eigen.q_z q))%R
         (1 / sqrt 2 * (Eigen.q_z q - Eigen.q_w q))%R
         (1 / sqrt 2 * (Eigen.q_x q - Eigen.q_y q))%R
  /\ Quat.norm2 q' = Quat.norm2 q.
Proof.
  cbv zeta. rewrite orientation_of_lidar_sample. split.
  - apply orientation_ENU_closed_form.
  - apply norm2_orientation_ENU.
Qed.

(** X14.  When the vehicle orientation received with the lidar sample
    is a unit quaternion, the world transform of the tick carries the
    converted pose: its translation is (y, x, -z), and its rotation,
    which went through a rotation matrix and back, is the converted
    orientation or its opposite, that is the same rotation. *)
Theorem X14_world_transform_carries_converted_pose
    (l : AirSimLidarType.t R) (ns : string) (st : Time) :
  let p := position (AirSimLidarType.vehicle_pose_world_NED l) in
  let w := transform (StepLidar.world_trans l ns st) in
  Quat.unit (orientation (AirSimLidarType.vehicle_pose_world_NED l)) ->
  Quat.translation_of w = Eigen.mkVector3 (Eigen.v_y p) (Eigen.v_x p) (- Eigen.v_z p)%R
  /\ (Quat.rotation_of w = StepLidar.vehicle_orientation_ENU l
      \/ Quat.rotation_of w = Quat.qneg (StepLidar.vehicle_orientation_ENU l)).
Proof.
  cbv zeta. intros Hu. split.
  - unfold Quat.translation_of, StepLidar.world_trans, transform_of_isometry.
    cbn. f_equal. ring.
  - assert (Hu' : Quat.unit (StepLidar.vehicle_orientation_ENU l)).
    { rewrite orientation_of_lidar_sample. apply unit_orientation_ENU. exact Hu. }
    unfold Quat.rotation_of, StepLidar.world_trans, transform_of_isometry,
      StepLidar.tf_world_vehicle_ENU, Eigen.translation_mul_quat, Eigen.rotation.
    cbn [transform rotation_w rotation_x rotation_y rotation_z Eigen.linear].
    destruct (quat_of_matrix_round_trip Hu') as [E|E]; [left | right];
      rewrite E; destruct (StepLidar.vehicle_orientation_ENU l); reflexivity.
Qed.

Lemma X14_world_transform_carries_converted_pose_witness :
  Quat.unit (orientation (AirSimLidarType.vehicle_pose_world_NED MoreExamples.lidar_level))
  /\ Quat.translation_of
       (transform (StepLidar.world_trans MoreExamples.lidar_level "robot1" 0%Z))
     = Eigen.mkVector3 5%R 4%R (- 6)%R.
Proof.
  assert (Hu : Quat.unit
                 (orientation
                    (AirSimLidarType.vehicle_pose_world_NED MoreExamples.lidar_level))).
  { unfold Quat.unit, Quat.norm2. simpl. lra. }
  split; [exact Hu|].
  apply (X14_world_transform_carries_converted_pose MoreExamples.lidar_level
           "robot1" 0%Z Hu).
Defined.

(** X15.  A sensor whose pose is that of the vehicle (a unit
    quaternion) gets the identity as its transform in the vehicle
    frame: no translation, rotation (0, 0, 0, 1).  This holds for the
    camera transform of the callback and of the tick and for the laser
    transform. *)
Theorem X15_sensor_at_vehicle_origin
    (a : AirSimImageType.t R) (l : AirSimLidarType.t R) (ns cam : string) (st : Time) :
  Quat.unit (orientation (AirSimImageType.vehicle_pose_world_NED a)) ->
  AirSimImageType.camera_pose_world_NED a = AirSimImageType.vehicle_pose_world_NED a ->
  Quat.unit (orientation (AirSimLidarType.vehicle_pose_world_NED l)) ->
  AirSimLidarType.lidar_pose_world_NED l = AirSimLidarType.vehicle_pose_world_NED l ->
  transform (ImageCb.image_trans_ a ns cam st) = Quat.identity
  /\ transform (StepImages.image_trans_ a ns cam st) = Quat.identity
  /\ transform (StepLidar.laser_trans_ l ns st) = Quat.identity.
Proof.
  intros Hua Ha Hul Hl.
  assert (Hua' : Quat.unit (ImageCb.vehicle_orientation_ENU a))
    by (unfold ImageCb.vehicle_orientation_ENU; rewrite orientation_convention;
        apply unit_orientation_ENU; exact Hua).
  assert (Hul' : Quat.unit (StepLidar.vehicle_orientation_ENU l))
    by (rewrite orientation_of_lidar_sample; apply unit_orientation_ENU; exact Hul).
  repeat split.
  - unfold ImageCb.image_trans_, ImageCb.tf_vehicle_camera_ENU,
      ImageCb.tf_world_camera_ENU, ImageCb.camera_position_world_ENU,
      ImageCb.camera_orientation_world_ENU. cbn [transform]. rewrite Ha.
    apply (relative_to_itself (ImageCb.vehicle_position_ENU a) Hua').
  - unfold StepImages.image_trans_, StepImages.tf_vehicle_camera_ENU,
      StepImages.tf_world_camera_ENU, StepImages.camera_position_world_ENU,
      StepImages.camera_orientation_world_ENU. cbn [transform]. rewrite Ha.
    apply (relative_to_itself (ImageCb.vehicle_position_ENU a) Hua').
  - unfold StepLidar.laser_trans_, StepLidar.tf_vehicle_lidar_ENU,
      StepLidar.tf_world_lidar_ENU, StepLidar.lidar_position_world_ENU,
      StepLidar.lidar_orientation_world_ENU. cbn [transform]. rewrite Hl.
    apply (relative_to_itself (StepLidar.vehicle_position_ENU l) Hul').
Qed.

Lemma X15_sensor_at_vehicle_origin_witness :
  Quat.unit (orientation (AirSimImageType.vehicle_pose_world_NED MoreExamples.img_at_vehicle))
  /\ AirSimImageType.camera_pose_world_NED MoreExamples.img_at_vehicle
     = AirSimImageType.vehicle_pose_world_NED MoreExamples.img_at_vehicle
  /\ transform (ImageCb.image_trans_ MoreExamples.img_at_vehicle "robot1" "front" 0%Z)
     = Quat.identity
  /\ transform (StepLidar.laser_trans_ MoreExamples.lidar_level "robot1" 0%Z)
     = Quat.identity.
Proof.
  assert (Hua : Quat.unit (orientation (AirSimImageType.vehicle_pose_world_NED
                                          MoreExamples.img_at_vehicle)))
    by (unfold Quat.unit, Quat.norm2; simpl; lra).
  assert (Hul : Quat.unit (orientation (AirSimLidarType.vehicle_pose_world_NED
                                          MoreExamples.lidar_level)))
    by (unfold Quat.unit, Quat.norm2; simpl; lra).
  destruct (X15_sensor_at_vehicle_origin MoreExamples.img_at_vehicle
              MoreExamples.lidar_level "robot1" "front" 0%Z Hua eq_refl Hul eq_refl)
    as (H1 & _ & H3).
  repeat split; assumption.
Defined.

(* ================================================================== *)
(** * Publishing and broadcasting, counted *)

Section Counting.
Context {F : Type} `{Scalar F}.

Lemma expected_image_publishes_length (o : ROSAirSim F) clk n images :
  (List.length (expected_image_publishes o clk n images) <= List.length images)%nat.
Proof.
  revert n. induction images as [|a images IH]; intros n; [apply Nat.le_refl|].
  cbn [expected_image_publishes]. rewrite length_app. specialize (IH (S n)).
  destruct (first_publisher _ _); cbn [List.length]; lia.
Qed.

Lemma first_publisher_of_own_topic pubs topic (pub : Publisher) :
  first_publisher pubs topic = Some pub -> first_publisher pubs (getTopic pub) = Some pub.
Proof.
  intros Hf. destruct (first_publisher_some _ _ Hf) as [_ Ht]. rewrite Ht. exact Hf.
Qed.



End Counting.

(** X16.  A tick publishes each buffered image at most once (it stops
    at the first publisher whose topic matches), so never more images
    than are buffered; every publication goes to the publisher found
    first for its topic and carries the pixels of a buffered image of
    that topic. *)
Theorem X16_tick_uses_first_publisher {F : Type} `{Scalar F} (s : St F) (t dt : F) :
  let o := self s in
  let published := image_publishes (events_of (step_autonomy t dt) s) in
  (List.length published <= List.length (image_data_ o))%nat
  /\ forall pub msg, In (pub, msg) published ->
       first_publisher (img_publishers_ o) (getTopic pub) = Some pub
       /\ exists a, In a (image_data_ o)
                    /\ getTopic pub = image_topic o a
                    /\ Image.image msg = AirSimImageType.img a.
Proof.
  cbv zeta. rewrite step_autonomy_image_publishes.
  destruct (pub_image_data_ (self s) && img_topic_published_ (self s)).
  - split; [apply expected_image_publishes_length|].
    intros pub msg Hin. apply expected_image_publishes_sound in Hin.
    destruct Hin as (a & k & Ha & Hp & ->). split.
    + eapply first_publisher_of_own_topic. exact Hp.
    + exists a. split; [exact Ha | split].
      * apply (first_publisher_some _ _ Hp).
      * unfold toImageMsg. destruct (pixels_as_float _); reflexivity.
  - split; [apply Nat.le_0_l | intros ? ? []].
Qed.

(** X17.  Every tick calls [sendTransform] exactly once, as its last
    action, be the list of transforms empty or not. *)
Theorem X17_one_broadcast_per_tick {F : Type} `{Scalar F} (s : St F) (t dt : F) :
  exists pre tf,
    events_of (step_autonomy t dt) s = pre ++ [EvSendTransform tf]
    /\ broadcasts pre = [].
Proof.
  rewrite step_autonomy_events. cbv zeta.
  set (s1 := state_after (image_branch (self s)) s).
  exists (EvSpinOnce :: EvLock :: EvReadFlag (img_topic_published_ (self s)) :: EvUnlock
          :: events_of (image_branch (self s)) s
             ++ events_of (lidar_branch (self s1)) s1).
  eexists. split.
  - cbn [app]. rewrite <- app_assoc. reflexivity.
  - change (broadcasts (?a :: ?b :: ?c :: ?d :: ?l)) with (broadcasts l).
    rewrite broadcasts_app, image_branch_broadcasts.
    unfold lidar_branch. destruct (pub_lidar_data_ _); reflexivity.
Qed.


(* ================================================================== *)
(** * Namespaces *)

Lemma to_int_proper (n : Z) :
  Z.to_int n <> Decimal.Pos Decimal.Nil /\ Z.to_int n <> Decimal.Neg Decimal.Nil.
Proof.
  destruct n as [|p|p]; cbn; split; try discriminate;
    intros E; injection E as E; exact (Unsigned.to_uint_nonnil p E).
Qed.

Lemma to_string_injective (a b : Z) : to_string a = to_string b -> a = b.
Proof.
  unfold to_string. intros E.
  apply (f_equal NilZero.int_of_string) in E.
  destruct (to_int_proper a) as [A1 A2], (to_int_proper b) as [B1 B2].
  rewrite !NilZero.isi in E by assumption.
  injection E as E. apply DecimalZ.to_int_inj. exact E.
Qed.

Lemma append_injective (p s s' : string) : (p ++ s = p ++ s')%string -> s = s'.
Proof.
  induction p as [|c p IH]; cbn; intros E; [exact E|].
  injection E as E. apply IH. exact E.
Qed.

Lemma length_append (s s' : string) :
  String.length (s ++ s') = (String.length s + String.length s')%nat.
Proof. induction s as [|c s IH]; cbn; [reflexivity | rewrite IH; reflexivity]. Qed.

Lemma append_cancel_r (n1 n2 suffix : string) :
  (n1 ++ suffix = n2 ++ suffix)%string -> n1 = n2.
Proof.
  intros E.
  assert (Hl : String.length n1 = String.length n2).
  { apply (f_equal String.length) in E. rewrite !length_append in E. lia. }
  revert n2 E Hl.
  induction n1 as [|c n1 IH]; intros [|c2 n2] E Hl; try discriminate Hl;
    [reflexivity|].
  cbn in E. injection E as -> E. f_equal. apply IH; [exact E|].
  cbn in Hl. lia.
Qed.

Lemma init_namespace {F : Type} `{Scalar F} `{ParseUtils}
      (params : Params) (parent_ : Entity F) (s : St F) :
  ros_namespace_ (self (state_after (init params parent_) s))
  = (get_string "ros_namespace_prefix" params "robot" ++ to_string (id parent_))%string.
Proof.
  unfold init, when, ros_init, state_after. cbv zeta.
  destruct (get_bool "show_camera_images" params "false"),
           (get_bool "pub_image_data" params "true"),
           (get_bool "pub_lidar_data" params "true");
    cbn -[String.append to_string];
    destruct (ros_isInitialized (world s)); reflexivity.
Qed.

(** X19.  Two plugins initialised with the same parameters for parents
    with different ids get different namespaces, and so different
    base_scan topics and world-transform child frames. *)
Theorem X19_distinct_ids_distinct_namespaces {F : Type} `{Scalar F} `{ParseUtils}
    (params : Params) (parent1 parent2 : Entity F) (s1 s2 : St F) :
  id parent1 <> id parent2 ->
  let o1 := self (state_after (init params parent1) s1) in
  let o2 := self (state_after (init params parent2) s2) in
  ros_namespace_ o1 <> ros_namespace_ o2
  /\ getTopic (base_scan_pub_ o1) <> getTopic (base_scan_pub_ o2)
  /\ child_frame_id (world_trans_ o1) <> child_frame_id (world_trans_ o2).
Proof.
  intros Hid. cbv zeta.
  assert (Hns : ros_namespace_ (self (state_after (init params parent1) s1))
                <> ros_namespace_ (self (state_after (init params parent2) s2))).
  { rewrite !init_namespace. intros E. apply append_injective in E.
    apply to_string_injective in E. contradiction. }
  split; [exact Hns|].
  revert Hns. rewrite !init_namespace.
  set (n1 := (_ ++ to_string (id parent1))%string).
  set (n2 := (_ ++ to_string (id parent2))%string).
  intros Hns.
  assert (Happ : forall suffix : string, (n1 ++ suffix)%string <> (n2 ++ suffix)%string).
  { intros suffix E. apply Hns. eapply append_cancel_r. exact E. }
  assert (Hb : base_scan_pub_ (self (state_after (init params parent1) s1))
               = mkPublisher (n1 ++ "/base_scan")
               /\ base_scan_pub_ (self (state_after (init params parent2) s2))
                  = mkPublisher (n2 ++ "/base_scan")
               /\ child_frame_id (world_trans_ (self (state_after (init params parent1) s1)))
                  = (n1 ++ "/base_link")%string
               /\ child_frame_id (world_trans_ (self (state_after (init params parent2) s2)))
                  = (n2 ++ "/base_link")%string).
  { subst n1 n2. unfold init, when, ros_init, state_after. cbv zeta.
    destruct (get_bool "show_camera_images" params "false"),
             (get_bool "pub_image_data" params "true"),
             (get_bool "pub_lidar_data" params "true");
      cbn -[String.append to_string];
      destruct (ros_isInitialized (world s1)), (ros_isInitialized (world s2));
      cbn -[String.append to_string]; repeat split; reflexivity. }
  destruct Hb as (-> & -> & -> & ->). cbn [getTopic]. split; apply Happ.
Qed.

Lemma X19_distinct_ids_distinct_namespaces_witness :
  id MoreExamples.parent1 <> id MoreExamples.parent2
  /\ ros_namespace_
       (self (state_after (@init R MoreExamples.answer_defaults [] MoreExamples.parent1)
                (mkSt MoreExamples.plugin_fresh Examples.world0)))
     <> ros_namespace_
          (self (state_after (@init R MoreExamples.answer_defaults [] MoreExamples.parent2)
                   (mkSt MoreExamples.plugin_fresh Examples.world0))).
Proof.
  assert (Hid : id MoreExamples.parent1 <> id MoreExamples.parent2) by discriminate.
  split; [exact Hid|].
  apply (@X19_distinct_ids_distinct_namespaces R _ MoreExamples.answer_defaults []
           MoreExamples.parent1 MoreExamples.parent2
           (mkSt MoreExamples.plugin_fresh Examples.world0)
           (mkSt MoreExamples.plugin_fresh Examples.world0) Hid).
Defined.

Example init_then_first_message :
  let s1 := state_after (@init R MoreExamples.answer_defaults [] MoreExamples.parent1)
              (mkSt MoreExamples.plugin_fresh Examples.world0) in
  let s2 := state_after (airsim_image_cb [MoreExamples.img_Front; Examples.img_front])
              s1 in
  ros_namespace_ (self s1) = "robot1"%string
  /\ map getTopic (img_publishers_ (self s2))
     = ["/robot1/front/scene"; "/robot1/front/scene"]%string
  /\ camera_names_ (self s2) = ["front"%string].
Proof. repeat split; reflexivity. Qed.
